(** * The muse tracker component ([src/tracker-component.js])

    A shallow embedding of the tracker: the payload shaping of [track], the
    identity cookie, the tracker handle returned by [Tracker] with its
    generic entry point [trackEvent], and the forwarding to the catalog
    tracking client.  The JavaScript built-ins the code calls
    ([JSON.stringify], [btoa], [encodeURIComponent], property lookup on a
    plain object) are embedded as executable functions next to the decoders
    ([JSON.parse], [atob], [decodeURIComponent]) that the round-trip
    property of the beacon URL is stated with.

    The declaration of [getJetlorePayload] in the source is misspelt
    ([cosnt], and the arrow is missing); it is read as the arrow function
    [(type, payload) => { switch ... }] that it is meant to be.

    Layout: all definitions first, then the lemmas and theorems. *)

From Stdlib Require Import ZArith NArith List Ascii String Lia Bool.
From stdpp Require Import base option list gmap.

Local Open Scope N_scope.

(* ===================================================================== *)
(** * Part I: definitions                                                 *)
(* ===================================================================== *)

(** ** JavaScript strings

    A JavaScript string is a sequence of UTF-16 code units.  Code units are
    kept as [N]; [js] turns an ASCII literal of the source into such a
    sequence. *)

Definition jstring := list N.

Definition js (s : string) : jstring :=
  map N_of_ascii (list_ascii_of_string s).
Arguments js : simpl never.

(** Decimal rendering of an array index, as used for the property names of
    the elements of an array or of a string. *)
Fixpoint uint_chars (d : Decimal.uint) : jstring :=
  match d with
  | Decimal.Nil => []
  | Decimal.D0 d => 48 :: uint_chars d
  | Decimal.D1 d => 49 :: uint_chars d
  | Decimal.D2 d => 50 :: uint_chars d
  | Decimal.D3 d => 51 :: uint_chars d
  | Decimal.D4 d => 52 :: uint_chars d
  | Decimal.D5 d => 53 :: uint_chars d
  | Decimal.D6 d => 54 :: uint_chars d
  | Decimal.D7 d => 55 :: uint_chars d
  | Decimal.D8 d => 56 :: uint_chars d
  | Decimal.D9 d => 57 :: uint_chars d
  end.

Definition index_name (i : nat) : jstring := uint_chars (Nat.to_uint i).

(** ** JavaScript values

    The values that travel through the tracker: the payload types of the
    source ([Product], [ViewData], [CartData], [RemoveCartData],
    [PurchaseData], [UserData], [PropertyData]) are built from strings,
    arrays and objects, with [undefined] for an optional field that is left
    out.  [null] and booleans are included; numbers (IEEE doubles) are not
    part of the payload types and are left out of the universe.

    An object is the list of its own enumerable properties in enumeration
    order, each name occurring once. *)

#[local] Unset Elimination Schemes.
Inductive value : Type :=
| VUndefined
| VNull
| VBool (b : bool)
| VString (s : jstring)
| VArray (l : list value)
| VObject (props : list (jstring * value)).
#[local] Set Elimination Schemes.

Definition props := list (jstring * value).

(** [ToBoolean]: what [if (x)], [!x], [x || y] and [x && y] test. *)
Definition truthy (v : value) : bool :=
  match v with
  | VUndefined | VNull => false
  | VBool b => b
  | VString s => match s with [] => false | _ => true end
  | VArray _ | VObject _ => true
  end.

(** [a || b] *)
Definition js_or (a b : value) : value := if truthy a then a else b.

(** [x === "literal"], the comparison a [switch] makes against a string
    [case] label, and [Array.prototype.includes] on an array of strings. *)
Definition strict_eq_string (v : value) (s : jstring) : bool :=
  match v with
  | VString t => bool_decide (t = s)
  | _ => false
  end.

(** *** Own properties *)

Fixpoint obj_lookup (k : jstring) (o : props) : option value :=
  match o with
  | [] => None
  | (k', v) :: o' => if decide (k = k') then Some v else obj_lookup k o'
  end.

(** [o[k] = v] on an ordinary object: an existing property keeps its place,
    a new one goes last. *)
Fixpoint obj_set (k : jstring) (v : value) (o : props) : props :=
  match o with
  | [] => [(k, v)]
  | (k', v') :: o' =>
      if decide (k = k') then (k, v) :: o' else (k', v') :: obj_set k v o'
  end.

(** The own enumerable string-keyed properties that object spread [{...x}]
    copies: those of an object; the indexed elements of an array or of a
    string; none for [undefined], [null] and booleans. *)
Definition own_props (v : value) : props :=
  match v with
  | VObject o => o
  | VArray l => imap (fun i x => (index_name i, x)) l
  | VString s => imap (fun i c => (index_name i, VString [c])) s
  | VUndefined | VNull | VBool _ => []
  end.

(** [{ ...acc, ...v }] *)
Definition spread (acc : props) (v : value) : props :=
  fold_left (fun a kv => obj_set (fst kv) (snd kv) a) (own_props v) acc.

(** Errors the embedded code can raise. *)
Inductive error : Type :=
| TypeError
| InvalidCharacterError
| URIError.

Inductive result (A : Type) : Type :=
| Ok (a : A)
| Throw (e : error).
Arguments Ok {A} a.
Arguments Throw {A} e.

(** [v.k] for a property name [k] that no prototype defines (every name
    the tracker reads: [user], [email], [name], [property], [id],
    [deal_id], ...): the own property of an object, [undefined] when there
    is none and on a primitive or an array, a [TypeError] on [undefined]
    and [null]. *)
Definition get_prop (v : value) (k : jstring) : result value :=
  match v with
  | VUndefined | VNull => Throw TypeError
  | VObject o => Ok (default VUndefined (obj_lookup k o))
  | VBool _ | VString _ | VArray _ => Ok VUndefined
  end.

(** The object literal [{ k1: payload.k1, ..., kn: payload.kn }]. *)
Fixpoint read_fields (payload : value) (keys : list jstring) : result props :=
  match keys with
  | [] => Ok []
  | k :: ks =>
      match get_prop payload k with
      | Ok v =>
          match read_fields payload ks with
          | Ok o => Ok ((k, v) :: o)
          | Throw e => Throw e
          end
      | Throw e => Throw e
      end
  end.

Definition pick_fields (payload : value) (keys : list jstring)
  : result value :=
  match read_fields payload keys with
  | Ok o => Ok (VObject o)
  | Throw e => Throw e
  end.

(** ** [JSON.stringify] and [JSON.parse]

    [JSON.stringify(v)] without replacer and indentation.  A property whose
    value is [undefined] is left out of an object, an [undefined] element
    of an array is written [null], and [JSON.stringify(undefined)] is
    [undefined] (here [None]). *)

Definition hex_digit_lower (d : N) : N :=
  if d <? 10 then 48 + d else 87 + d.

(** [\uXXXX] with lowercase hexadecimal digits *)
Definition unicode_escape (c : N) : jstring :=
  [92; 117; hex_digit_lower (c / 4096); hex_digit_lower ((c / 256) mod 16);
   hex_digit_lower ((c / 16) mod 16); hex_digit_lower (c mod 16)].

Definition is_high_surrogate (c : N) : bool := (55296 <=? c) && (c <=? 56319).
Definition is_low_surrogate (c : N) : bool := (56320 <=? c) && (c <=? 57343).

(** One code unit that is not a surrogate, as [QuoteJSONString] writes it. *)
Definition quote_unit (c : N) : jstring :=
  if c =? 8 then [92; 98]            (* \b *)
  else if c =? 9 then [92; 116]      (* \t *)
  else if c =? 10 then [92; 110]     (* \n *)
  else if c =? 12 then [92; 102]     (* \f *)
  else if c =? 13 then [92; 114]     (* \r *)
  else if c =? 34 then [92; 34]      (* \ and the quotation mark *)
  else if c =? 92 then [92; 92]      (* two backslashes *)
  else if c <? 32 then unicode_escape c
  else [c].

(** The characters between the quotation marks: a surrogate pair is copied,
    a lone surrogate is escaped. *)
Fixpoint quote_units (s : jstring) : jstring :=
  match s with
  | [] => []
  | c :: r =>
      if is_high_surrogate c then
        match r with
        | d :: r' =>
            if is_low_surrogate d then c :: d :: quote_units r'
            else unicode_escape c ++ quote_units r
        | [] => unicode_escape c
        end
      else if is_low_surrogate c then unicode_escape c ++ quote_units r
      else quote_unit c ++ quote_units r
  end.

Definition quote_json_string (s : jstring) : jstring :=
  34 :: quote_units s ++ [34].

Fixpoint join_comma (l : list jstring) : jstring :=
  match l with
  | [] => []
  | [x] => x
  | x :: l' => x ++ 44 :: join_comma l'
  end.

Definition str_null : jstring := js "null".
Definition str_true : jstring := js "true".
Definition str_false : jstring := js "false".

Definition member_text (k : jstring) (o : option jstring) : option jstring :=
  match o with
  | Some t => Some (quote_json_string k ++ 58 :: t)
  | None => None
  end.

Fixpoint stringify (v : value) : option jstring :=
  match v with
  | VUndefined => None
  | VNull => Some str_null
  | VBool b => Some (if b then str_true else str_false)
  | VString s => Some (quote_json_string s)
  | VArray l =>
      Some (91 :: join_comma (map (fun x => default str_null (stringify x)) l)
              ++ [93])
  | VObject ps =>
      Some (123 :: join_comma
                     (omap (fun kv => match kv with
                                      | (k, x) => member_text k (stringify x)
                                      end) ps)
              ++ [125])
  end.

(** [JSON.stringify] as the code calls it: a string, or [undefined]. *)
Definition JSON_stringify (v : value) : value :=
  match stringify v with
  | Some s => VString s
  | None => VUndefined
  end.

(** [JSON.parse].  White space is space, tab, line feed and carriage
    return.  Numerals are a syntax error here, numbers being outside the
    value universe. *)
Definition is_json_ws (c : N) : bool :=
  (c =? 32) || (c =? 9) || (c =? 10) || (c =? 13).

Fixpoint skip_ws (s : jstring) : jstring :=
  match s with
  | c :: r => if is_json_ws c then skip_ws r else s
  | [] => []
  end.

Definition hex_value (c : N) : option N :=
  if (48 <=? c) && (c <=? 57) then Some (c - 48)
  else if (97 <=? c) && (c <=? 102) then Some (c - 87)
  else if (65 <=? c) && (c <=? 70) then Some (c - 55)
  else None.

Definition hex4_value (a b c d : N) : option N :=
  x ← hex_value a; y ← hex_value b; z ← hex_value c; w ← hex_value d;
  Some (x * 4096 + y * 256 + z * 16 + w).

Definition simple_escape (e : N) : option N :=
  if e =? 34 then Some 34
  else if e =? 92 then Some 92
  else if e =? 47 then Some 47
  else if e =? 98 then Some 8
  else if e =? 102 then Some 12
  else if e =? 110 then Some 10
  else if e =? 114 then Some 13
  else if e =? 116 then Some 9
  else None.

(** The rest of a string literal after its opening quotation mark: the
    string denoted and the input left after the closing mark. *)
Fixpoint parse_string_body (s : jstring) : option (jstring * jstring) :=
  match s with
  | [] => None
  | c :: r =>
      if c =? 34 then Some ([], r)
      else if c =? 92 then
        match r with
        | [] => None
        | e :: r1 =>
            if e =? 117 then
              match r1 with
              | h1 :: h2 :: h3 :: h4 :: r2 =>
                  u ← hex4_value h1 h2 h3 h4;
                  '(t, rest) ← parse_string_body r2;
                  Some (u :: t, rest)
              | _ => None
              end
            else
              u ← simple_escape e;
              '(t, rest) ← parse_string_body r1;
              Some (u :: t, rest)
        end
      else if c <? 32 then None
      else
        '(t, rest) ← parse_string_body r;
        Some (c :: t, rest)
  end.

(** Members are defined in the order read; a repeated name overwrites. *)
Definition object_of_members (ms : props) : value :=
  VObject (fold_left (fun o kv => obj_set (fst kv) (snd kv) o) ms []).

Fixpoint parse_value (fuel : nat) (s : jstring) : option (value * jstring) :=
  match fuel with
  | O => None
  | S fuel =>
      match skip_ws s with
      | 34 :: r =>
          '(t, r') ← parse_string_body r; Some (VString t, r')
      | 91 :: r =>
          match skip_ws r with
          | 93 :: r' => Some (VArray [], r')
          | _ => '(vs, r') ← parse_elements fuel r; Some (VArray vs, r')
          end
      | 123 :: r =>
          match skip_ws r with
          | 125 :: r' => Some (VObject [], r')
          | _ => '(ms, r') ← parse_members fuel r;
                 Some (object_of_members ms, r')
          end
      | 110 :: 117 :: 108 :: 108 :: r => Some (VNull, r)
      | 116 :: 114 :: 117 :: 101 :: r => Some (VBool true, r)
      | 102 :: 97 :: 108 :: 115 :: 101 :: r => Some (VBool false, r)
      | _ => None
      end
  end
with parse_elements (fuel : nat) (s : jstring)
  : option (list value * jstring) :=
  match fuel with
  | O => None
  | S fuel =>
      '(v, r) ← parse_value fuel s;
      match skip_ws r with
      | 44 :: r' => '(vs, r'') ← parse_elements fuel r'; Some (v :: vs, r'')
      | 93 :: r' => Some ([v], r')
      | _ => None
      end
  end
with parse_members (fuel : nat) (s : jstring) : option (props * jstring) :=
  match fuel with
  | O => None
  | S fuel =>
      match skip_ws s with
      | 34 :: r =>
          '(k, r1) ← parse_string_body r;
          match skip_ws r1 with
          | 58 :: r2 =>
              '(v, r3) ← parse_value fuel r2;
              match skip_ws r3 with
              | 44 :: r4 =>
                  '(ms, r5) ← parse_members fuel r4; Some ((k, v) :: ms, r5)
              | 125 :: r4 => Some ([(k, v)], r4)
              | _ => None
              end
          | _ => None
          end
      | _ => None
      end
  end.

Definition JSON_parse (s : jstring) : option value :=
  '(v, r) ← parse_value (S (length s)) s;
  match skip_ws r with
  | [] => Some v
  | _ => None
  end.

(** What a JSON text can carry of a value: [undefined] properties are gone
    and [undefined] array elements are [null]. *)
Fixpoint json_norm (v : value) : value :=
  match v with
  | VArray l =>
      VArray (map (fun x => match x with
                            | VUndefined => VNull
                            | _ => json_norm x
                            end) l)
  | VObject ps =>
      VObject (omap (fun kv => match kv with
                               | (k, x) =>
                                   match x with
                                   | VUndefined => None
                                   | _ => Some (k, json_norm x)
                                   end
                               end) ps)
  | _ => v
  end.

Definition is_defined (v : value) : bool :=
  match v with
  | VUndefined => false
  | _ => true
  end.

(** The representation invariant of objects: within one object every
    property name occurs once. *)
Fixpoint distinct_keys (v : value) : Prop :=
  match v with
  | VArray l => fold_right (fun x P => distinct_keys x /\ P) True l
  | VObject ps =>
      NoDup (map fst ps) /\
      fold_right (fun kv P => distinct_keys (snd kv) /\ P) True ps
  | _ => True
  end.

(** The text of an array element, and the element that is read back. *)
Definition element_text (x : value) : jstring :=
  default str_null (stringify x).

Definition element_norm (x : value) : value :=
  match x with
  | VUndefined => VNull
  | _ => json_norm x
  end.

(** The text of an object member whose value is defined, and the member
    that is read back. *)
Definition defined_member_text (kv : jstring * value) : jstring :=
  quote_json_string (fst kv) ++ 58 :: element_text (snd kv).

Definition member_norm (kv : jstring * value) : jstring * value :=
  (fst kv, json_norm (snd kv)).

Definition defined_members (ps : props) : props :=
  List.filter (fun kv => is_defined (snd kv)) ps.

(** The characters a value text can start with: none is white space and
    none closes an array or an object. *)
Definition opens_value (c : N) : Prop :=
  c = 34 \/ c = 91 \/ c = 123 \/ c = 110 \/ c = 116 \/ c = 102.

(** Reading back a value from its text, followed by any text, with
    enough fuel: what the induction on values establishes. *)
Definition reads_back (v : value) : Prop :=
  forall s, stringify v = Some s -> distinct_keys v ->
  forall fuel rest, (length s <= fuel)%nat ->
  parse_value fuel (s ++ rest) = Some (json_norm v, rest).

(** ** [btoa] and [atob]

    [btoa] reads each code unit of its argument as one byte and raises
    [InvalidCharacterError] when a code unit is above 255. *)

Definition b64_char (i : N) : N :=
  if i <? 26 then 65 + i
  else if i <? 52 then 71 + i
  else if i <? 62 then i - 4
  else if i =? 62 then 43
  else 47.

(** The six-bit groups of a byte sequence; the last group of an
    incomplete triple is filled with zero bits. *)
Fixpoint b64_sextets (l : list N) : list N :=
  match l with
  | a :: b :: c :: r =>
      a / 4 :: (a mod 4) * 16 + b / 16 :: (b mod 16) * 4 + c / 64 :: c mod 64
        :: b64_sextets r
  | [a; b] => [a / 4; (a mod 4) * 16 + b / 16; (b mod 16) * 4]
  | [a] => [a / 4; (a mod 4) * 16]
  | [] => []
  end.

Definition b64_padding (l : list N) : jstring :=
  match (length l mod 3)%nat with
  | 1%nat => [61; 61]
  | 2%nat => [61]
  | _ => []
  end.

Definition b64_encode (l : list N) : jstring :=
  map b64_char (b64_sextets l) ++ b64_padding l.

Definition is_byte (c : N) : bool := c <? 256.

Definition btoa (s : jstring) : result jstring :=
  if forallb is_byte s then Ok (b64_encode s) else Throw InvalidCharacterError.

(** [atob], the forgiving decoder: ASCII white space is dropped, one or two
    trailing [=] are dropped from an input whose length is a multiple of
    four, a remaining length of 4n+1 or a character outside the alphabet
    is an error, and the bits left over at the end are discarded. *)
Definition b64_index (c : N) : option N :=
  if (65 <=? c) && (c <=? 90) then Some (c - 65)
  else if (97 <=? c) && (c <=? 122) then Some (c - 71)
  else if (48 <=? c) && (c <=? 57) then Some (c + 4)
  else if c =? 43 then Some 62
  else if c =? 47 then Some 63
  else None.

Definition is_ascii_ws (c : N) : bool :=
  (c =? 9) || (c =? 10) || (c =? 12) || (c =? 13) || (c =? 32).

Definition strip_padding (s : jstring) : jstring :=
  match rev s with
  | c1 :: r1 =>
      if c1 =? 61 then
        match r1 with
        | c2 :: r2 => if c2 =? 61 then rev r2 else rev r1
        | [] => rev r1
        end
      else s
  | [] => s
  end.

Fixpoint b64_decode (l : list N) : jstring :=
  match l with
  | a :: b :: c :: d :: r =>
      (a * 4 + b / 16) :: ((b mod 16) * 16 + c / 4) :: ((c mod 4) * 64 + d)
        :: b64_decode r
  | [a; b; c] => [a * 4 + b / 16; (b mod 16) * 16 + c / 4]
  | [a; b] => [a * 4 + b / 16]
  | _ => []
  end.

Definition atob (s : jstring) : option jstring :=
  let s1 := List.filter (fun c => negb (is_ascii_ws c)) s in
  let s2 := if (length s1 mod 4 =? 0)%nat then strip_padding s1 else s1 in
  if (length s2 mod 4 =? 1)%nat then None
  else sx ← mapM b64_index s2; Some (b64_decode sx).

(** ** [encodeURIComponent] and [decodeURIComponent] *)

Definition is_uri_unreserved (c : N) : bool :=
  ((65 <=? c) && (c <=? 90)) || ((97 <=? c) && (c <=? 122))
  || ((48 <=? c) && (c <=? 57))
  || (c =? 45) || (c =? 95) || (c =? 46) || (c =? 33) || (c =? 126)
  || (c =? 42) || (c =? 39) || (c =? 40) || (c =? 41).

Definition hex_digit_upper (d : N) : N :=
  if d <? 10 then 48 + d else 55 + d.

Definition percent_byte (b : N) : jstring :=
  [37; hex_digit_upper (b / 16); hex_digit_upper (b mod 16)].

Definition utf8_bytes (cp : N) : list N :=
  if cp <? 128 then [cp]
  else if cp <? 2048 then [192 + cp / 64; 128 + cp mod 64]
  else if cp <? 65536 then
    [224 + cp / 4096; 128 + (cp / 64) mod 64; 128 + cp mod 64]
  else [240 + cp / 262144; 128 + (cp / 4096) mod 64;
        128 + (cp / 64) mod 64; 128 + cp mod 64].

Definition percent_encode (cp : N) : jstring :=
  concat (map percent_byte (utf8_bytes cp)).

(** [None] is the [URIError] raised on a lone surrogate. *)
Fixpoint encodeURIComponent (s : jstring) : option jstring :=
  match s with
  | [] => Some []
  | c :: r =>
      if is_uri_unreserved c then
        t ← encodeURIComponent r; Some (c :: t)
      else if is_low_surrogate c then None
      else if is_high_surrogate c then
        match r with
        | d :: r' =>
            if is_low_surrogate d then
              t ← encodeURIComponent r';
              Some (percent_encode ((c - 55296) * 1024 + (d - 56320) + 65536)
                      ++ t)
            else None
        | [] => None
        end
      else
        t ← encodeURIComponent r; Some (percent_encode c ++ t)
  end.

Definition hex2_value (a b : N) : option N :=
  x ← hex_value a; y ← hex_value b; Some (x * 16 + y).

(** [n] continuation bytes [%XX] with [XX] in 80..BF, accumulated onto
    [acc]. *)
Fixpoint take_continuation (n : nat) (acc : N) (s : jstring)
  : option (N * jstring) :=
  match n with
  | O => Some (acc, s)
  | S n' =>
      match s with
      | 37 :: h1 :: h2 :: r =>
          b ← hex2_value h1 h2;
          if (128 <=? b) && (b <=? 191)
          then take_continuation n' (acc * 64 + (b - 128)) r
          else None
      | _ => None
      end
  end.

Definition utf16_units (cp : N) : jstring :=
  if cp <? 65536 then [cp]
  else [55296 + (cp - 65536) / 1024; 56320 + (cp - 65536) mod 1024].

(** The code point that starts with the byte [b] (at least 128), read from
    the escapes that follow it; overlong forms, surrogates and values
    above 10FFFF are errors. *)
Definition decode_multibyte (b : N) (s : jstring) : option (N * jstring) :=
  if (194 <=? b) && (b <=? 223) then
    '(cp, r) ← take_continuation 1 (b - 192) s;
    if 128 <=? cp then Some (cp, r) else None
  else if (224 <=? b) && (b <=? 239) then
    '(cp, r) ← take_continuation 2 (b - 224) s;
    if (2048 <=? cp) && negb ((55296 <=? cp) && (cp <=? 57343))
    then Some (cp, r) else None
  else if (240 <=? b) && (b <=? 244) then
    '(cp, r) ← take_continuation 3 (b - 240) s;
    if (65536 <=? cp) && (cp <=? 1114111) then Some (cp, r) else None
  else None.

Fixpoint decode_uri (fuel : nat) (s : jstring) : option jstring :=
  match s with
  | [] => Some []
  | c :: r =>
      match fuel with
      | O => None
      | S fuel =>
          if c =? 37 then
            match r with
            | h1 :: h2 :: r' =>
                b ← hex2_value h1 h2;
                if b <? 128 then t ← decode_uri fuel r'; Some (b :: t)
                else
                  '(cp, r'') ← decode_multibyte b r';
                  t ← decode_uri fuel r''; Some (utf16_units cp ++ t)
            | _ => None
            end
          else t ← decode_uri fuel r; Some (c :: t)
      end
  end.

(** [None] is the [URIError] raised on a malformed escape sequence. *)
Definition decodeURIComponent (s : jstring) : option jstring :=
  decode_uri (length s) s.

(** ** The world the tracker runs in *)

Definition loc := nat.

Inductive TrackingType := View | CartEvent | Purchase | SetUser.

Definition TrackingType_name (t : TrackingType) : jstring :=
  match t with
  | View => js "view"
  | CartEvent => js "cartEvent"
  | Purchase => js "purchase"
  | SetUser => js "setUser"
  end.

Inductive CartEventType := AddToCart | SetCart | RemoveFromCart.

Definition CartEventType_name (t : CartEventType) : jstring :=
  match t with
  | AddToCart => js "addToCart"
  | SetCart => js "setCart"
  | RemoveFromCart => js "removeFromCart"
  end.

(** [config.jetlore] *)
Record Jetlore := {
  user_id : jstring;
  access_token : jstring;
  feed_id : jstring;
  div : option jstring;
  lang : option jstring
}.

(** [Config].  [user] and [property] are [undefined] or an object;
    [paramsToBeaconUrl] receives the object [{ trackingType, data }]. *)
Record Config := {
  user : value;
  property : value;
  paramsToBeaconUrl : option (value -> jstring);
  jetlore : option Jetlore
}.

(** A call made on the catalog tracking client [JL]. *)
Inductive JLCall :=
| JL_tracking (trackingConfig : value)
| JL_tracker (type : jstring) (payload : value).

(** An [img] element. *)
Record Img := { display : jstring; src : jstring }.

(** - [heap]: the configuration objects, by reference;
    - [closures]: for each call of [Tracker], the object its variable
      [config] refers to at present (the variable is shared by the
      functions of the handle that the call returned);
    - [cookies]: each cookie with the value and the lifetime in
      milliseconds it was set with;
    - [generated]: how many identifiers [generateId] has handed out;
    - [document_body]: the children of [document.body], [None] when the
      document has no body;
    - [beacons]: the URLs assigned to the [src] of an image, oldest first;
    - [jl_calls]: the calls made on the catalog tracking client, oldest
      first;
    - [payloads]: history of the [data] objects built by [track], with
      their tracking type, oldest first. *)
Record World := {
  heap : gmap loc Config;
  closures : gmap nat loc;
  cookies : gmap jstring (value * Z);
  generated : nat;
  document_body : option (list Img);
  beacons : list jstring;
  jl_calls : list JLCall;
  payloads : list (TrackingType * value)
}.

Definition set_heap (h : gmap loc Config) (w : World) : World :=
  {| heap := h; closures := closures w; cookies := cookies w;
     generated := generated w;
     document_body := document_body w; beacons := beacons w;
     jl_calls := jl_calls w; payloads := payloads w |}.

Definition set_closures (c : gmap nat loc) (w : World) : World :=
  {| heap := heap w; closures := c; cookies := cookies w;
     generated := generated w;
     document_body := document_body w; beacons := beacons w;
     jl_calls := jl_calls w; payloads := payloads w |}.

Definition set_cookies (c : gmap jstring (value * Z)) (w : World) : World :=
  {| heap := heap w; closures := closures w; cookies := c; generated := generated w;
     document_body := document_body w; beacons := beacons w;
     jl_calls := jl_calls w; payloads := payloads w |}.

Definition set_generated (n : nat) (w : World) : World :=
  {| heap := heap w; closures := closures w; cookies := cookies w; generated := n;
     document_body := document_body w; beacons := beacons w;
     jl_calls := jl_calls w; payloads := payloads w |}.

Definition set_document_body (b : option (list Img)) (w : World) : World :=
  {| heap := heap w; closures := closures w; cookies := cookies w; generated := generated w;
     document_body := b; beacons := beacons w;
     jl_calls := jl_calls w; payloads := payloads w |}.

Definition set_beacons (b : list jstring) (w : World) : World :=
  {| heap := heap w; closures := closures w; cookies := cookies w; generated := generated w;
     document_body := document_body w; beacons := b;
     jl_calls := jl_calls w; payloads := payloads w |}.

Definition set_jl_calls (c : list JLCall) (w : World) : World :=
  {| heap := heap w; closures := closures w; cookies := cookies w; generated := generated w;
     document_body := document_body w; beacons := beacons w;
     jl_calls := c; payloads := payloads w |}.

Definition set_payloads (p : list (TrackingType * value)) (w : World)
  : World :=
  {| heap := heap w; closures := closures w; cookies := cookies w; generated := generated w;
     document_body := document_body w; beacons := beacons w;
     jl_calls := jl_calls w; payloads := p |}.

(** A computation reads and changes the world and returns or throws; what
    it changed before throwing stays changed. *)
Definition M (A : Type) : Type := World -> result A * World.

Definition ret {A} (a : A) : M A := fun w => (Ok a, w).

Definition bind {A B} (m : M A) (k : A -> M B) : M B :=
  fun w =>
    match m w with
    | (Ok a, w') => k a w'
    | (Throw e, w') => (Throw e, w')
    end.

Definition lift {A} (r : result A) : M A := fun w => (r, w).

Definition throw {A} (e : error) : M A := lift (Throw e).

Definition modify (f : World -> World) : M unit := fun w => (Ok tt, f w).

Definition gets {A} (f : World -> A) : M A := fun w => (Ok (f w), w).

Declare Scope tracker_scope.
Delimit Scope tracker_scope with tracker.
Notation "'let*' x ':=' m 'in' k" := (bind m (fun x => k))
  (at level 10, x name, m at level 100, k at level 200) : tracker_scope.
Notation "m ';;;' k" := (bind m (fun _ => k))
  (at level 100, k at level 200, right associativity) : tracker_scope.
Local Open Scope tracker_scope.

(** A configuration object by reference.  Every reference the tracker
    holds is to an allocated object; the error stands for a world that is
    not well formed. *)
Definition deref (l : loc) : M Config :=
  fun w =>
    match heap w !! l with
    | Some c => (Ok c, w)
    | None => (Throw TypeError, w)
    end.

(** A new object. *)
Definition alloc (c : Config) : M loc :=
  fun w =>
    let l := fresh (dom (heap w)) in
    (Ok l, set_heap (<[l := c]> (heap w)) w).

(** Modelled from the spec: [lib/cookie-utils] is not part of the sources.
    The spec's identity persistence is "a named storage key holding a
    string token with a fixed time-to-live" behind "storage get/set
    primitives": [setCookie] stores the value with its lifetime under the
    name, replacing what was there, and [getCookie] returns the stored
    value, [undefined] when there is none. *)
Definition getCookie (name : jstring) : M value :=
  gets (fun w => match cookies w !! name with
                 | Some (v, _) => v
                 | None => VUndefined
                 end).

Definition setCookie (name : jstring) (v : value) (ttl : Z) : M unit :=
  modify (fun w => set_cookies (<[name := (v, ttl)]> (cookies w)) w).

(** Modelled from the spec: [lib/jetlore] is not part of the sources.  The
    catalog tracking client is "an externally provided object exposing an
    initialization call ... and one callback per supported event-type
    name"; its calls are recorded and return. *)
Definition JL_call (c : JLCall) : M unit :=
  modify (fun w => set_jl_calls (jl_calls w ++ [c]) w).

Definition sevenDays : Z := 604800000.

Definition cookie_user_id : jstring := js "paypal-user-id".
Definition cookie_cart : jstring := js "paypal-cr-cart".

(** [ToString] of the argument of [btoa]: [JSON.stringify] gives a string
    or [undefined]. *)
Definition string_of_stringified (v : value) : jstring :=
  match v with
  | VString s => s
  | _ => js "undefined"
  end.

(** [data => encodeURIComponent(btoa(JSON.stringify(data)))] *)
Definition encodeData (data : value) : result jstring :=
  match btoa (string_of_stringified (JSON_stringify data)) with
  | Ok b =>
      match encodeURIComponent b with
      | Some e => Ok e
      | None => Throw URIError
      end
  | Throw e => Throw e
  end.

Definition beacon_url_prefix (trackingType : TrackingType) : jstring :=
  js "https://www.paypal.com/targeting/track/"
    ++ TrackingType_name trackingType ++ js "?data=".

Section Component.

(** Modelled from the spec: [generate-id] is not part of the sources;
    "identifier generation" is an opaque provided service that
    "generates a new random identifier".  [generateId n] is the
    identifier handed out by the call number [n]. *)
Variable generateId : nat -> jstring.

(** [getClientID()] and [getMerchantID()] of [@paypal/sdk-client]. *)
Variable clientID : jstring.
Variable merchantID : list jstring.

Definition generateId_call : M jstring :=
  fun w => (Ok (generateId (generated w)),
            set_generated (S (generated w)) w).

Definition getUserIdCookie : M value :=
  let* c := getCookie cookie_user_id in
  ret (js_or c VNull).

Definition setRandomUserIdCookie : M unit :=
  let ONE_MONTH_IN_MILLISECONDS := (30 * 24 * 60 * 60 * 1000)%Z in
  let* id := generateId_call in
  setCookie cookie_user_id (VString id) ONE_MONTH_IN_MILLISECONDS.

(** [getJetlorePayload(type, payload)].  The [switch] compares [type]
    with each label by [===]; without a match the function returns
    [undefined]. *)
Definition getJetlorePayload (type payload : value) : result value :=
  if strict_eq_string type (js "addToCart")
     || strict_eq_string type (js "removeFromCart")
     || strict_eq_string type (js "purchase")
  then pick_fields payload [js "deal_id"; js "option_id"; js "count"]
  else if strict_eq_string type (js "search")
  then pick_fields payload [js "text"]
  else if strict_eq_string type (js "view")
          || strict_eq_string type (js "browse_section")
  then pick_fields payload [js "name"; js "refinements"]
  else if strict_eq_string type (js "browse_promo")
  then pick_fields payload [js "name"; js "id"]
  else if strict_eq_string type (js "addToWishList")
          || strict_eq_string type (js "removeFromWishList")
          || strict_eq_string type (js "addToFavorites")
          || strict_eq_string type (js "removeFromFavorites")
  then get_prop payload (js "payload")
  else if strict_eq_string type (js "track")
  then pick_fields payload
         [js "event"; js "deal_id"; js "count"; js "price"; js "title";
          js "option_id"; js "text"]
  else Ok VUndefined.

(** The [user] object of the payload. *)
Definition payload_user (config : Config) (id : value) : value :=
  VObject (obj_set (js "id") id (spread [] (user config))).

(** The [data] object of [track]. *)
Definition payload_data (config : Config) (trackingType : TrackingType)
    (trackingData id : value) : value :=
  VObject
    (obj_set (js "merchantId") (VString (join_comma merchantID))
    (obj_set (js "clientId") (VString clientID)
    (obj_set (js "trackingType") (VString (TrackingType_name trackingType))
    (obj_set (js "property") (property config)
    (obj_set (js "user") (payload_user config id)
    (spread [] trackingData)))))).

(** [track(config, trackingType, trackingData)].  [track] only reads
    its configuration, so the object is passed by value. *)
Definition track (config : Config) (trackingType : TrackingType)
    (trackingData : value) : M unit :=
  let img_display := js "none" in
  let* id0 := getUserIdCookie in
  (if truthy id0 then ret tt else setRandomUserIdCookie) ;;;
  let* id := getUserIdCookie in
  let data := payload_data config trackingType trackingData id in
  modify (fun w => set_payloads (payloads w ++ [(trackingType, data)]) w) ;;;
  let* img_src :=
    match paramsToBeaconUrl config with
    | Some f =>
        ret (f (VObject [(js "trackingType",
                          VString (TrackingType_name trackingType));
                         (js "data", data)]))
    | None =>
        let* enc := lift (encodeData data) in
        ret (beacon_url_prefix trackingType ++ enc)
    end in
  modify (fun w => set_beacons (beacons w ++ [img_src]) w) ;;;
  modify (fun w =>
            match document_body w with
            | Some children =>
                set_document_body
                  (Some (children
                           ++ [{| display := img_display;
                                  src := img_src |}])) w
            | None => w
            end).

Definition trackCartEvent (config : Config) (cartEventType : CartEventType)
    (trackingData : value) : M unit :=
  track config CartEvent
    (VObject (obj_set (js "cartEventType")
                (VString (CartEventType_name cartEventType))
                (spread [] trackingData))).

Definition defaultTrackerConfig : Config :=
  {| user := VObject [(js "email", VUndefined); (js "name", VUndefined)];
     property := VUndefined;
     paramsToBeaconUrl := None;
     jetlore := None |}.

(** Where the module-level object [defaultTrackerConfig] lives. *)
Definition defaultTrackerConfig_ref : loc := 0%nat.

Definition jetloreTrackTypes : list jstring :=
  [js "view"; js "addToCart"; js "removeFromCart"; js "purchase";
   js "search"; js "browse_section"; js "browse_promo";
   js "addToWishList"; js "removeFromWishList"; js "addToFavorites";
   js "removeFromFavorites"; js "track"].

(** An optional string field: [undefined] when left out. *)
Definition optional (o : option jstring) : value :=
  match o with
  | Some s => VString s
  | None => VUndefined
  end.

(** The [trackingConfig] object handed to [JL.tracking]. *)
Definition jetlore_trackingConfig (j : Jetlore) : value :=
  let div := optional (div j) in
  let lang := optional (lang j) in
  let trackingConfig :=
    [(js "cid", VString (access_token j));
     (js "user_id", VString (user_id j));
     (js "feed_id", VString (feed_id j))] in
  let trackingConfig :=
    if negb (truthy div) then obj_set (js "div") div trackingConfig
    else trackingConfig in
  let trackingConfig :=
    if negb (truthy lang) then obj_set (js "lang") lang trackingConfig
    else trackingConfig in
  VObject trackingConfig.

(** The variable [config] of the call [h] of [Tracker]. *)
Definition read_config_ref (h : nat) : M loc :=
  fun w =>
    match closures w !! h with
    | Some l => (Ok l, w)
    | None => (Throw TypeError, w)
    end.

Definition write_config_ref (h : nat) (l : loc) : M unit :=
  modify (fun w => set_closures (<[h := l]> (closures w)) w).

Definition read_config (h : nat) : M Config :=
  let* l := read_config_ref h in
  deref l.

(** [Tracker(config)]: the argument is a reference to the caller's
    configuration object, [None] when the call has no argument.  The
    result names the handle [{ ...trackers, track: trackEvent }]. *)
Definition Tracker (arg : option loc) : M nat :=
  let config := default defaultTrackerConfig_ref arg in
  let* c := deref config in
  match jetlore c with
  | Some j => JL_call (JL_tracking (jetlore_trackingConfig j))
  | None => ret tt
  end ;;;
  fun w =>
    let h := fresh (dom (closures w)) in
    (Ok h, set_closures (<[h := config]> (closures w)) w).

(** The functions of [trackers]. *)

Definition view (h : nat) (data : value) : M unit :=
  let* config := read_config h in
  track config View data.

Definition addToCart (h : nat) (data : value) : M unit :=
  setCookie cookie_cart (JSON_stringify data) sevenDays ;;;
  let* config := read_config h in
  trackCartEvent config AddToCart data.

Definition setCart (h : nat) (data : value) : M unit :=
  let* config := read_config h in
  trackCartEvent config SetCart data.

Definition removeFromCart (h : nat) (data : value) : M unit :=
  let* config := read_config h in
  trackCartEvent config RemoveFromCart data.

Definition purchase (h : nat) (data : value) : M unit :=
  let* config := read_config h in
  track config Purchase data.

(** [data.user.k || ((config && config.user) || {}).k]; [config] is an
    object, so [config && config.user] is [config.user]. *)
Definition new_or_stored (data : value) (config : Config) (k : jstring)
  : result value :=
  match get_prop data (js "user") with
  | Ok u =>
      match get_prop u k with
      | Ok v =>
          if truthy v then Ok v
          else get_prop (js_or (user config) (VObject [])) k
      | Throw e => Throw e
      end
  | Throw e => Throw e
  end.

Definition setUser (h : nat) (data : value) : M unit :=
  let* config := read_config h in
  let* email := lift (new_or_stored data config (js "email")) in
  let* name := lift (new_or_stored data config (js "name")) in
  let* l :=
    alloc {| user := VObject (obj_set (js "name") name
                               (obj_set (js "email") email
                                  (spread [] (user config))));
             property := property config;
             paramsToBeaconUrl := paramsToBeaconUrl config;
             jetlore := jetlore config |} in
  write_config_ref h l ;;;
  let* config := read_config h in
  let* oldUserId := getUserIdCookie in
  track config SetUser (VObject [(js "oldUserId", oldUserId)]).

Definition setProperty (h : nat) (data : value) : M unit :=
  let* l := read_config_ref h in
  let* config := deref l in
  let* p := lift (get_prop data (js "property")) in
  let* id := lift (get_prop p (js "id")) in
  modify (fun w =>
            set_heap (<[l := {| user := user config;
                                property := VObject [(js "id", id)];
                                paramsToBeaconUrl := paramsToBeaconUrl config;
                                jetlore := jetlore config |}]> (heap w)) w).

Inductive tracker_name :=
| T_view | T_addToCart | T_setCart | T_removeFromCart | T_purchase
| T_setUser | T_setProperty.

Definition own_tracker (type : jstring) : option tracker_name :=
  if decide (type = js "view") then Some T_view
  else if decide (type = js "addToCart") then Some T_addToCart
  else if decide (type = js "setCart") then Some T_setCart
  else if decide (type = js "removeFromCart") then Some T_removeFromCart
  else if decide (type = js "purchase") then Some T_purchase
  else if decide (type = js "setUser") then Some T_setUser
  else if decide (type = js "setProperty") then Some T_setProperty
  else None.

Definition call_tracker (t : tracker_name) (h : nat) (data : value)
  : M unit :=
  match t with
  | T_view => view h data
  | T_addToCart => addToCart h data
  | T_setCart => setCart h data
  | T_removeFromCart => removeFromCart h data
  | T_purchase => purchase h data
  | T_setUser => setUser h data
  | T_setProperty => setProperty h data
  end.

(** [trackers] is an ordinary object, so [trackers[type]] also finds
    what it inherits from [Object.prototype]. *)
Inductive prototype_member :=
| P_constructor | P_hasOwnProperty | P_isPrototypeOf
| P_propertyIsEnumerable | P_toLocaleString | P_toString | P_valueOf
| P_proto | P_defineGetter | P_defineSetter | P_lookupGetter
| P_lookupSetter.

Definition object_prototype (name : jstring) : option prototype_member :=
  if decide (name = js "constructor") then Some P_constructor
  else if decide (name = js "hasOwnProperty") then Some P_hasOwnProperty
  else if decide (name = js "isPrototypeOf") then Some P_isPrototypeOf
  else if decide (name = js "propertyIsEnumerable")
  then Some P_propertyIsEnumerable
  else if decide (name = js "toLocaleString") then Some P_toLocaleString
  else if decide (name = js "toString") then Some P_toString
  else if decide (name = js "valueOf") then Some P_valueOf
  else if decide (name = js "__proto__") then Some P_proto
  else if decide (name = js "__defineGetter__") then Some P_defineGetter
  else if decide (name = js "__defineSetter__") then Some P_defineSetter
  else if decide (name = js "__lookupGetter__") then Some P_lookupGetter
  else if decide (name = js "__lookupSetter__") then Some P_lookupSetter
  else None.

(** Whether [ToPropertyKey(v)] returns: an object is converted by the
    [toString] it inherits unless it has a property of that name (no
    value of the universe is a function), an array by joining its
    elements. *)
Fixpoint to_property_key_returns (v : value) : bool :=
  match v with
  | VObject o =>
      match obj_lookup (js "toString") o with
      | Some _ => false
      | None => true
      end
  | VArray l =>
      forallb (fun x => match x with
                        | VUndefined | VNull => true
                        | _ => to_property_key_returns x
                        end) l
  | _ => true
  end.

(** [trackers[name](data)] for an inherited member, called with the one
    argument [data]: [__proto__] is the prototype object and not a
    function; [__defineGetter__] and [__defineSetter__] reject a second
    argument that is not a function; [hasOwnProperty],
    [propertyIsEnumerable], [__lookupGetter__] and [__lookupSetter__]
    convert their argument to a property key; the others return. *)
Definition call_prototype_member (m : prototype_member) (data : value)
  : result unit :=
  match m with
  | P_proto | P_defineGetter | P_defineSetter => Throw TypeError
  | P_hasOwnProperty | P_propertyIsEnumerable | P_lookupGetter
  | P_lookupSetter =>
      if to_property_key_returns data then Ok tt else Throw TypeError
  | P_constructor | P_isPrototypeOf | P_toLocaleString | P_toString
  | P_valueOf => Ok tt
  end.

(** [trackEvent(type, data)], the [track] of the handle.  The call
    [getJetlorePayload(data)] has one argument: [data] is bound to the
    parameter [type] and the parameter [payload] is [undefined]. *)
Definition trackEvent (h : nat) (type : jstring) (data : value) : M unit :=
  let* config := read_config h in
  let isJetloreType :=
    match jetlore config with
    | Some _ => bool_decide (type ∈ jetloreTrackTypes)
    | None => false
    end in
  (if bool_decide (is_Some (jetlore config)) && isJetloreType && truthy data
   then
     let* jlData := lift (getJetlorePayload data VUndefined) in
     JL_call (JL_tracker type jlData)
   else ret tt) ;;;
  match own_tracker type with
  | Some t => call_tracker t h data
  | None =>
      match object_prototype type with
      | Some m => lift (call_prototype_member m data)
      | None => ret tt
      end
  end.

(** The world before any call: the module-level default configuration and
    nothing else. *)
Definition initial_world (body : option (list Img)) : World :=
  {| heap := {[ defaultTrackerConfig_ref := defaultTrackerConfig ]};
     closures := ∅;
     cookies := ∅;
     generated := 0;
     document_body := body;
     beacons := [];
     jl_calls := [];
     payloads := [] |}.

(** ** Notions the properties are stated with *)

(** What [getUserIdCookie()] returns in [w]: the stored identity, [null]
    when there is none. *)
Definition stored_identity (w : World) : value :=
  js_or (match cookies w !! cookie_user_id with
         | Some (v, _) => v
         | None => VUndefined
         end) VNull.

(** The configuration object the handle [h] works with at present. *)
Definition current_config (w : World) (h : nat) : option Config :=
  l ← closures w !! h; heap w !! l.

(** The own property [k] of an object, as [payload.k] names it. *)
Definition payload_field (k : string) (payload : value) : option value :=
  match payload with
  | VObject o => obj_lookup (js k) o
  | _ => None
  end.

(** What [config.user.k] holds: [undefined] when there is no such
    property or no [user]. *)
Definition stored_user_field (config : Config) (k : string) : value :=
  default VUndefined (payload_field k (user config)).

(** The configuration object that [setUser] builds from [config] and the
    values chosen for [email] and [name]. *)
Definition with_user (config : Config) (email name : value) : Config :=
  {| user := VObject (obj_set (js "name") name
                        (obj_set (js "email") email
                           (spread [] (user config))));
     property := property config;
     paramsToBeaconUrl := paramsToBeaconUrl config;
     jetlore := jetlore config |}.

(** The configuration object after [config.property = { id }]. *)
Definition with_property (config : Config) (id : value) : Config :=
  {| user := user config;
     property := VObject [(js "id", id)];
     paramsToBeaconUrl := paramsToBeaconUrl config;
     jetlore := jetlore config |}.

(** Reading the data back from the query parameter of a beacon URL. *)
Definition decode_data (enc : jstring) : option value :=
  u ← decodeURIComponent enc; b ← atob u; JSON_parse b.

(** The text [btoa] is applied to in [encodeData]. *)
Definition serialized (data : value) : jstring :=
  string_of_stringified (JSON_stringify data).

(** The tracking type and the tracking data with which a function of
    [trackers] calls [track]; none for [setUser], which rebuilds the
    configuration first, and for [setProperty], which does not call it. *)
Definition event_of (t : tracker_name) (data : value)
  : option (TrackingType * value) :=
  let cart c :=
    Some (CartEvent,
          VObject (obj_set (js "cartEventType")
                     (VString (CartEventType_name c)) (spread [] data))) in
  match t with
  | T_view => Some (View, data)
  | T_purchase => Some (Purchase, data)
  | T_addToCart => cart AddToCart
  | T_setCart => cart SetCart
  | T_removeFromCart => cart RemoveFromCart
  | T_setUser | T_setProperty => None
  end.

(** The world in which that call of [track] starts: [addToCart] has
    stored the cart snapshot by then. *)
Definition before_event (t : tracker_name) (data : value) (w : World)
  : World :=
  match t with
  | T_addToCart =>
      set_cookies (<[cookie_cart := (JSON_stringify data, sevenDays)]>
                     (cookies w)) w
  | _ => w
  end.

(** The world after the first three statements of [track] that touch
    the identity: unchanged when an identity is stored, otherwise with
    a fresh identifier stored for thirty days. *)
Definition identified (w : World) : World :=
  if truthy (stored_identity w) then w
  else
    set_cookies
      (<[cookie_user_id := (VString (generateId (generated w)),
                            2592000000%Z)]> (cookies w))
      (set_generated (S (generated w)) w).

(** What [track] assigns to [img.src], or the error raised on the way. *)
Definition beacon_src (config : Config) (trackingType : TrackingType)
    (data : value) : result jstring :=
  match paramsToBeaconUrl config with
  | Some f =>
      Ok (f (VObject [(js "trackingType",
                       VString (TrackingType_name trackingType));
                      (js "data", data)]))
  | None =>
      match encodeData data with
      | Ok enc => Ok (beacon_url_prefix trackingType ++ enc)
      | Throw e => Throw e
      end
  end.

(** The image appended to the body, when there is a body. *)
Definition with_image (url : jstring) (w : World) : World :=
  match document_body w with
  | Some children =>
      set_document_body
        (Some (children ++ [{| display := js "none"; src := url |}])) w
  | None => w
  end.

(** A page calling functions of the handle [h] one after the other; an
    error ends the call that raised it, not the page. *)
Fixpoint run_calls (h : nat) (calls : list (tracker_name * value))
    (w : World) : World :=
  match calls with
  | [] => w
  | (t, data) :: rest =>
      run_calls h rest
        (snd (call_tracker t h data w))
  end.

Fixpoint run_events (h : nat) (events : list (jstring * value))
    (w : World) : World :=
  match events with
  | [] => w
  | (type, data) :: rest =>
      run_events h rest
        (snd (trackEvent h type data w))
  end.

(** ** Sample inputs

    Concrete inputs at which the properties are instantiated. *)

Definition sample_generateId (n : nat) : jstring :=
  105 :: 100 :: 45 :: index_name n.

Definition sample_clientID : jstring := js "client-abc".

Definition sample_merchantID : list jstring := [js "m1"; js "m2"].

(** [{ page: "/home", title: "Home" }] *)
Definition sample_view : value :=
  VObject [(js "page", VString (js "/home"));
           (js "title", VString (js "Home"))].

(** [{ page: "/caf" + "\u20AC" }], with the euro sign. *)
Definition sample_view_euro : value :=
  VObject [(js "page", VString (js "/caf" ++ [8364]))].

(** [{ cartId: "c1", items: [{ id: "sku-1" }] }] *)
Definition sample_cart : value :=
  VObject [(js "cartId", VString (js "c1"));
           (js "items", VArray [VObject [(js "id", VString (js "sku-1"))]])].

(** [{ user: { name: "Bob" } }] *)
Definition sample_user_name_only : value :=
  VObject [(js "user", VObject [(js "name", VString (js "Bob"))])].

(** [{ property: { id: "P1" } }] *)
Definition sample_property : value :=
  VObject [(js "property", VObject [(js "id", VString (js "P1"))])].

(** [{ name: "home", refinements: [] }] *)
Definition sample_catalog_view : props :=
  [(js "name", VString (js "home")); (js "refinements", VArray [])].

Definition sample_jetlore : Jetlore :=
  {| user_id := js "u1"; access_token := js "token"; feed_id := js "feed";
     div := Some (js "main"); lang := None |}.

(** Credentials with an empty [div]. *)
Definition sample_jetlore_empty_div : Jetlore :=
  {| user_id := js "u1"; access_token := js "token"; feed_id := js "feed";
     div := Some []; lang := None |}.

(** [{ user: { email: "a@b.c" }, jetlore: { ... } }] *)
Definition sample_config_jetlore (j : Jetlore) : Config :=
  {| user := VObject [(js "email", VString (js "a@b.c"))];
     property := VUndefined;
     paramsToBeaconUrl := None;
     jetlore := Some j |}.

(** [{ user: { email: "a@b.c" }, paramsToBeaconUrl: () => "/beacon" }] *)
Definition sample_override : value -> jstring := fun _ => js "/beacon".

Definition sample_config_override : Config :=
  {| user := VObject [(js "email", VString (js "a@b.c"))];
     property := VUndefined;
     paramsToBeaconUrl := Some sample_override;
     jetlore := None |}.

(** A page with a body, the default configuration at its place and the
    sample configurations at the references 1, 2 and 3, with one handle
    on each of the four: the handle [n] works on the object [n]. *)
Definition sample_world : World :=
  {| heap := {[ defaultTrackerConfig_ref := defaultTrackerConfig;
                1%nat := sample_config_jetlore sample_jetlore;
                2%nat := sample_config_override;
                3%nat := sample_config_jetlore sample_jetlore_empty_div ]};
     closures := {[ 0%nat := 0%nat; 1%nat := 1%nat; 2%nat := 2%nat;
                    3%nat := 3%nat ]};
     cookies := ∅;
     generated := 0;
     document_body := Some [];
     beacons := [];
     jl_calls := [];
     payloads := [] |}.

(** ** Notions of the further properties *)

(** The types for which [getJetlorePayload] hands on [payload.payload]
    instead of building an object. *)
Definition is_list_payload_type (type : value) : bool :=
  strict_eq_string type (js "addToWishList")
  || strict_eq_string type (js "removeFromWishList")
  || strict_eq_string type (js "addToFavorites")
  || strict_eq_string type (js "removeFromFavorites").

(** [payload.k], [undefined] when the object has no such property. *)
Definition own_or_undefined (o : props) (k : jstring) : value :=
  default VUndefined (obj_lookup k o).

(** The function of [trackers] for each kind of cart event. *)
Definition cart_function (c : CartEventType) : tracker_name :=
  match c with
  | AddToCart => T_addToCart
  | SetCart => T_setCart
  | RemoveFromCart => T_removeFromCart
  end.

(** The five names that [track] defines in every payload. *)
Definition track_field_names : list jstring :=
  [js "user"; js "property"; js "trackingType"; js "clientId";
   js "merchantId"].

(** The properties of an object value; none for any other value. *)
Definition object_props (v : value) : props :=
  match v with
  | VObject o => o
  | _ => []
  end.


(** [payload.user.k] *)
Definition user_field (k : jstring) (payload : value) : option value :=
  match payload_field "user" payload with
  | Some (VObject u) => obj_lookup k u
  | _ => None
  end.

(** The image that [track] appends for a URL. *)
Definition hidden_image (url : jstring) : Img :=
  {| display := js "none"; src := url |}.

(** The property names that occur in the object literals of
    [getJetlorePayload]. *)
Definition jetlore_field_names : list jstring :=
  [js "deal_id"; js "option_id"; js "count"; js "text"; js "name";
   js "refinements"; js "id"; js "event"; js "price"; js "title"].

(** [{ user: { email: "bob@example.com", name: "Bob" + "€" } }], the
    name ending in the euro sign (U+20AC). *)
Definition sample_user_euro : value :=
  VObject [(js "user",
            VObject [(js "email", VString (js "bob@example.com"));
                     (js "name", VString (js "Bob" ++ [8364]))])].

(** [{ items: [{ id: "sku-1", title: "5" + "€" }] }], the title ending
    in the euro sign (U+20AC). *)
Definition sample_cart_euro : value :=
  VObject [(js "items",
            VArray [VObject [(js "id", VString (js "sku-1"));
                             (js "title", VString [53; 8364])]])].

(* ===================================================================== *)
(** * Part II: lemmas and theorems                                        *)
(* ===================================================================== *)

(** ** The monad *)

Lemma bind_ok {A B} (m : M A) (k : A -> M B) w a w' :
  m w = (Ok a, w') -> bind m k w = k a w'.
Proof. intros H. unfold bind. now rewrite H. Qed.

Lemma bind_throw {A B} (m : M A) (k : A -> M B) w e w' :
  m w = (Throw e, w') -> bind m k w = (Throw e, w').
Proof. intros H. unfold bind. now rewrite H. Qed.

Lemma getUserIdCookie_spec w :
  getUserIdCookie w = (Ok (stored_identity w), w).
Proof. reflexivity. Qed.

Lemma stored_identity_identified w :
  truthy (stored_identity w) = true ->
  stored_identity (identified w) = stored_identity w.
Proof. intros H. unfold identified. now rewrite H. Qed.

(** [track] as one step: the identity is made sure of, the payload is
    built from it, and the image is requested unless the encoding
    raised. *)
Lemma track_spec config ty d w :
  let w1 := identified w in
  let data := payload_data config ty d (stored_identity w1) in
  let w2 := set_payloads (payloads w1 ++ [(ty, data)]) w1 in
  track config ty d w =
    match beacon_src config ty data with
    | Ok url =>
        (Ok tt, with_image url (set_beacons (beacons w2 ++ [url]) w2))
    | Throw e => (Throw e, w2)
    end.
Proof.
  unfold track, identified, beacon_src.
  rewrite (bind_ok _ _ _ _ _ (getUserIdCookie_spec w)).
  destruct (truthy (stored_identity w)) eqn:Hid.
  - unfold bind at 1. cbn [ret].
    rewrite (bind_ok _ _ _ _ _ (getUserIdCookie_spec w)).
    unfold bind at 1. cbn [modify].
    destruct (paramsToBeaconUrl config) as [f|].
    + reflexivity.
    + unfold bind at 1, bind at 1, lift.
      destruct (encodeData _) as [enc|e]; reflexivity.
  - unfold bind at 1. unfold setRandomUserIdCookie, generateId_call.
    unfold bind at 1. cbn [setCookie modify].
    match goal with
    | |- bind getUserIdCookie _ ?w' = _ =>
        rewrite (bind_ok _ _ _ _ _ (getUserIdCookie_spec w'))
    end.
    unfold bind at 1. cbn [modify].
    destruct (paramsToBeaconUrl config) as [f|].
    + reflexivity.
    + unfold bind at 1, bind at 1, lift.
      destruct (encodeData _) as [enc|e]; reflexivity.
Qed.

(** ** Objects *)

Lemma obj_lookup_set_eq k v o : obj_lookup k (obj_set k v o) = Some v.
Proof.
  induction o as [|[k' v'] o IH]; cbn.
  - now rewrite decide_True.
  - destruct (decide (k = k')) as [->|Hne]; cbn.
    + now rewrite decide_True.
    + now rewrite decide_False.
Qed.

Lemma obj_lookup_set_ne k k' v o :
  k <> k' -> obj_lookup k (obj_set k' v o) = obj_lookup k o.
Proof.
  intros Hne. induction o as [|[k1 v1] o IH]; cbn.
  - now rewrite decide_False.
  - destruct (decide (k' = k1)) as [->|Hne1]; cbn.
    + now rewrite !decide_False.
    + destruct (decide (k = k1)); [reflexivity | exact IH].
Qed.

Lemma obj_set_keys_fresh k v o :
  k ∉ map fst o -> obj_set k v o = o ++ [(k, v)].
Proof.
  induction o as [|[k' v'] o IH]; cbn; intros Hk.
  - reflexivity.
  - rewrite decide_False by (intros ->; apply Hk; left).
    f_equal. apply IH. intros Hin. apply Hk. now right.
Qed.

Lemma obj_set_keys k v o :
  map fst (obj_set k v o) =
    if bool_decide (k ∈ map fst o) then map fst o else map fst o ++ [k].
Proof.
  induction o as [|[k' v'] o IH]; cbn.
  - reflexivity.
  - destruct (decide (k = k')) as [->|Hne]; cbn.
    + rewrite bool_decide_eq_true_2 by left. reflexivity.
    + rewrite IH. destruct (bool_decide (k ∈ map fst o)) eqn:Hin.
      * apply bool_decide_eq_true_1 in Hin.
        rewrite bool_decide_eq_true_2 by now right. reflexivity.
      * apply bool_decide_eq_false_1 in Hin.
        rewrite bool_decide_eq_false_2; [reflexivity|].
        intros Hc. apply elem_of_cons in Hc as [?|?]; congruence.
Qed.

Lemma obj_set_NoDup k v o : NoDup (map fst o) -> NoDup (map fst (obj_set k v o)).
Proof.
  intros Hnd. rewrite obj_set_keys.
  destruct (bool_decide (k ∈ map fst o)) eqn:Hin; [exact Hnd|].
  apply bool_decide_eq_false_1 in Hin.
  apply NoDup_app. split; [exact Hnd|]. split.
  - intros x Hx Hx'. apply list_elem_of_singleton in Hx'. congruence.
  - apply NoDup_singleton.
Qed.

Lemma fold_obj_set_NoDup (l acc : props) :
  NoDup (map fst acc) ->
  NoDup (map fst (fold_left (fun a kv => obj_set (fst kv) (snd kv) a) l acc)).
Proof.
  revert acc. induction l as [|[k v] l IH]; cbn; intros acc Hnd.
  - exact Hnd.
  - apply IH. now apply obj_set_NoDup.
Qed.

Lemma spread_NoDup acc v :
  NoDup (map fst acc) -> NoDup (map fst (spread acc v)).
Proof. apply fold_obj_set_NoDup. Qed.

(** Defining the properties of an object with distinct names one after
    the other gives the object back. *)
Lemma fold_obj_set_distinct (l acc : props) :
  NoDup (map fst (acc ++ l)) ->
  fold_left (fun a kv => obj_set (fst kv) (snd kv) a) l acc = acc ++ l.
Proof.
  revert acc. induction l as [|[k v] l IH]; cbn; intros acc Hnd.
  - now rewrite app_nil_r.
  - rewrite obj_set_keys_fresh.
    + rewrite IH; rewrite <- app_assoc; [reflexivity | exact Hnd].
    + rewrite map_app in Hnd. apply NoDup_app in Hnd as (_ & Hd & _).
      intros Hin. apply (Hd k Hin). cbn. left.
Qed.

Lemma spread_nil_object o : NoDup (map fst o) -> spread [] (VObject o) = o.
Proof. intros H. unfold spread. cbn. now rewrite fold_obj_set_distinct. Qed.

(** The value a property of an object reads as, whatever stood there. *)
Lemma get_prop_object k o :
  get_prop (VObject o) k = Ok (default VUndefined (obj_lookup k o)).
Proof. reflexivity. Qed.

(** ** The payload *)

Ltac distinct_names :=
  let H := fresh in intros H; vm_compute in H; discriminate H.

Lemma payload_user_id config id :
  payload_field "id" (payload_user config id) = Some id.
Proof. apply obj_lookup_set_eq. Qed.

Lemma payload_data_user config ty d id :
  payload_field "user" (payload_data config ty d id)
  = Some (payload_user config id).
Proof.
  unfold payload_data, payload_field.
  repeat (rewrite obj_lookup_set_ne by distinct_names).
  apply obj_lookup_set_eq.
Qed.

Lemma payload_data_property config ty d id :
  payload_field "property" (payload_data config ty d id)
  = Some (property config).
Proof.
  unfold payload_data, payload_field.
  repeat (rewrite obj_lookup_set_ne by distinct_names).
  apply obj_lookup_set_eq.
Qed.

Lemma payload_data_trackingType config ty d id :
  payload_field "trackingType" (payload_data config ty d id)
  = Some (VString (TrackingType_name ty)).
Proof.
  unfold payload_data, payload_field.
  repeat (rewrite obj_lookup_set_ne by distinct_names).
  apply obj_lookup_set_eq.
Qed.

(** A property of the tracking data under another name than the five
    that [track] defines is copied. *)
Lemma payload_data_copied config ty d id k :
  k ∉ [js "user"; js "property"; js "trackingType"; js "clientId";
       js "merchantId"] ->
  obj_lookup k (match payload_data config ty d id with
                | VObject o => o
                | _ => []
                end)
  = obj_lookup k (spread [] d).
Proof.
  intros Hk. unfold payload_data.
  repeat (rewrite obj_lookup_set_ne;
          [| intros ->; apply Hk; repeat constructor]).
  reflexivity.
Qed.

(** ** What [track] and the functions of the handle change *)

Ltac world_simpl :=
  unfold with_image, set_heap, set_closures, set_cookies, set_generated,
    set_document_body, set_beacons, set_jl_calls, set_payloads in *;
  cbn [heap closures cookies generated document_body beacons jl_calls
       payloads fst snd] in *.

Lemma identified_frame w :
  heap (identified w) = heap w /\ closures (identified w) = closures w
  /\ jl_calls (identified w) = jl_calls w
  /\ payloads (identified w) = payloads w
  /\ beacons (identified w) = beacons w
  /\ document_body (identified w) = document_body w.
Proof.
  unfold identified.
  destruct (truthy (stored_identity w)); repeat split.
Qed.

Lemma track_effects config ty d w :
  let w' := snd (track config ty d w) in
  let w1 := identified w in
  heap w' = heap w /\ closures w' = closures w /\ jl_calls w' = jl_calls w
  /\ cookies w' = cookies w1 /\ generated w' = generated w1
  /\ payloads w'
     = payloads w ++ [(ty, payload_data config ty d (stored_identity w1))].
Proof.
  cbv zeta. rewrite track_spec.
  destruct (identified_frame w) as (Hh & Hc & Hj & Hp & _).
  destruct (beacon_src _ _ _) as [url|e]; cbn [snd];
    [destruct (document_body (identified w)) eqn:Hb; unfold with_image;
     world_simpl; rewrite ?Hb |];
    world_simpl; rewrite ?Hp; repeat split; assumption.
Qed.

Lemma read_config_spec w h config :
  current_config w h = Some config -> read_config h w = (Ok config, w).
Proof.
  unfold current_config, read_config, read_config_ref, deref, bind.
  destruct (closures w !! h) as [l|]; cbn; [|discriminate].
  intros ->. reflexivity.
Qed.

Lemma call_event t data ty d h w config :
  event_of t data = Some (ty, d) ->
  current_config w h = Some config ->
  call_tracker t h data w = track config ty d (before_event t data w).
Proof.
  intros Hev Hcfg.
  destruct t; unfold event_of in Hev; inversion Hev; subst; clear Hev;
    cbn [call_tracker before_event];
    unfold view, purchase, addToCart, setCart, removeFromCart, trackCartEvent;
    try (rewrite (bind_ok _ _ _ _ _ (read_config_spec _ _ _ Hcfg));
         reflexivity).
  unfold bind at 1. cbn [setCookie modify].
  erewrite bind_ok; [reflexivity|].
  apply read_config_spec. exact Hcfg.
Qed.

Lemma before_event_identity t data w :
  stored_identity (before_event t data w) = stored_identity w
  /\ cookies (before_event t data w) !! cookie_user_id
     = cookies w !! cookie_user_id
  /\ generated (before_event t data w) = generated w
  /\ payloads (before_event t data w) = payloads w
  /\ heap (before_event t data w) = heap w
  /\ closures (before_event t data w) = closures w
  /\ jl_calls (before_event t data w) = jl_calls w.
Proof.
  destruct t; cbn [before_event]; repeat split; world_simpl.
  - unfold stored_identity. world_simpl.
    rewrite lookup_insert_ne by distinct_names. reflexivity.
  - rewrite lookup_insert_ne by distinct_names. reflexivity.
Qed.

Lemma read_config_ref_spec w h l :
  closures w !! h = Some l -> read_config_ref h w = (Ok l, w).
Proof. intros H. unfold read_config_ref. now rewrite H. Qed.

Lemma deref_spec w l config :
  heap w !! l = Some config -> deref l w = (Ok config, w).
Proof. intros H. unfold deref. now rewrite H. Qed.

Lemma current_config_inv w h config :
  current_config w h = Some config ->
  exists l, closures w !! h = Some l /\ heap w !! l = Some config.
Proof.
  unfold current_config. destruct (closures w !! h) as [l|]; cbn;
    [eauto | discriminate].
Qed.

(** [setUser]: an error in reading [data.user] leaves everything as it
    was; otherwise a new configuration object is made current and the
    event is tracked with the identity read before. *)
Lemma setUser_spec h data w config :
  current_config w h = Some config ->
  setUser h data w =
    match new_or_stored data config (js "email") with
    | Throw e => (Throw e, w)
    | Ok email =>
        match new_or_stored data config (js "name") with
        | Throw e => (Throw e, w)
        | Ok name =>
            let l := fresh (dom (heap w)) in
            let config' := with_user config email name in
            track config' SetUser
              (VObject [(js "oldUserId", stored_identity w)])
              (set_closures (<[h := l]> (closures w))
                 (set_heap (<[l := config']> (heap w)) w))
        end
    end.
Proof.
  intros Hcfg. unfold setUser.
  rewrite (bind_ok _ _ _ _ _ (read_config_spec _ _ _ Hcfg)).
  unfold bind at 1, lift.
  destruct (new_or_stored data config (js "email")) as [email|e];
    [|reflexivity].
  unfold bind at 1.
  destruct (new_or_stored data config (js "name")) as [name|e];
    [|reflexivity].
  unfold bind at 1, alloc. unfold bind at 1. cbn [write_config_ref modify].
  cbv zeta.
  erewrite bind_ok.
  2:{ apply read_config_spec. unfold current_config. world_simpl.
      rewrite lookup_insert_eq. cbn. apply lookup_insert_eq. }
  rewrite (bind_ok _ _ _ _ _ (getUserIdCookie_spec _)).
  reflexivity.
Qed.

(** [setProperty]: an error in reading [data.property.id] leaves
    everything as it was; otherwise the current object is updated. *)
Lemma setProperty_spec h data w l config :
  closures w !! h = Some l -> heap w !! l = Some config ->
  setProperty h data w =
    match get_prop data (js "property") with
    | Throw e => (Throw e, w)
    | Ok p =>
        match get_prop p (js "id") with
        | Throw e => (Throw e, w)
        | Ok id =>
            (Ok tt, set_heap (<[l := with_property config id]> (heap w)) w)
        end
    end.
Proof.
  intros Hl Hc. unfold setProperty.
  rewrite (bind_ok _ _ _ _ _ (read_config_ref_spec _ _ _ Hl)).
  rewrite (bind_ok _ _ _ _ _ (deref_spec _ _ _ Hc)).
  unfold bind at 1, lift.
  destruct (get_prop data (js "property")) as [p|e]; [|reflexivity].
  unfold bind at 1.
  destruct (get_prop p (js "id")) as [id|e]; reflexivity.
Qed.

(** What no function of the handle touches: the calls made on the
    catalog client, the credentials and the URL override of the current
    configuration; and, [setProperty] apart, its property. *)
Lemma call_tracker_frame t h data w config :
  current_config w h = Some config ->
  let w' := snd (call_tracker t h data w) in
  jl_calls w' = jl_calls w
  /\ exists config',
      current_config w' h = Some config'
      /\ jetlore config' = jetlore config
      /\ paramsToBeaconUrl config' = paramsToBeaconUrl config
      /\ (t <> T_setProperty -> property config' = property config).
Proof.
  intros Hcfg. cbv zeta.
  destruct (event_of t data) as [[ty d]|] eqn:Hev.
  - rewrite (call_event _ _ _ _ _ _ _ Hev Hcfg).
    destruct (track_effects config ty d
                (before_event t data w)) as (Hh & Hc & Hj & _).
    destruct (before_event_identity t data w)
      as (_ & _ & _ & _ & Hh' & Hc' & Hj').
    split; [congruence|]. exists config. repeat split.
    unfold current_config in *. now rewrite Hc, Hh, Hc', Hh'.
  - destruct t; try discriminate Hev; cbn [call_tracker].
    + rewrite (setUser_spec _ _ _ _ Hcfg).
      destruct (new_or_stored _ _ (js "email")) as [email|e];
        [|cbn; split; [reflexivity | exists config; auto]].
      destruct (new_or_stored _ _ (js "name")) as [name|e];
        [|cbn; split; [reflexivity | exists config; auto]].
      cbv zeta.
      match goal with
      | |- context [track ?c ?ty ?d ?w0] =>
          destruct (track_effects c ty d w0)
            as (Hh & Hc & Hj & _)
      end.
      split; [rewrite Hj; reflexivity|].
      exists (with_user config email name). repeat split.
      unfold current_config. rewrite Hc, Hh. world_simpl.
      rewrite lookup_insert_eq. cbn. apply lookup_insert_eq.
    + destruct (current_config_inv _ _ _ Hcfg) as (l & Hl & Hc).
      rewrite (setProperty_spec _ _ _ _ _ Hl Hc).
      destruct (get_prop data (js "property")) as [p|e];
        [|cbn; split; [reflexivity | exists config; auto]].
      destruct (get_prop p (js "id")) as [id|e];
        [|cbn; split; [reflexivity | exists config; auto]].
      cbn [snd]. split; [reflexivity|].
      exists (with_property config id). repeat split; [|congruence].
      unfold current_config. world_simpl. rewrite Hl. cbn.
      apply lookup_insert_eq.
Qed.

(** ** The properties of the tracker *)

Lemma identified_present w :
  truthy (stored_identity w) = true -> identified w = w.
Proof. intros H. unfold identified. now rewrite H. Qed.

Lemma identified_absent w :
  truthy (stored_identity w) = false ->
  generated (identified w) = S (generated w)
  /\ cookies (identified w) !! cookie_user_id
     = Some (VString (generateId (generated w)), 2592000000%Z)
  /\ stored_identity (identified w)
     = js_or (VString (generateId (generated w))) VNull.
Proof.
  intros H. unfold identified. rewrite H.
  unfold stored_identity. world_simpl. rewrite lookup_insert_eq.
  repeat split.
Qed.

(** C5.  When the configuration has a [paramsToBeaconUrl] function, the
    URL of the image is what that function returns for the object
    [{ trackingType, data }], with [data] the merged payload: it is the
    one URL requested, the image appended to the body has it as [src],
    and the call returns (the encoding of the default template is not
    run). *)
Theorem track_override_verbatim config ty d f w :
  paramsToBeaconUrl config = Some f ->
  let data := payload_data config ty d (stored_identity (identified w)) in
  let url :=
    f (VObject [(js "trackingType", VString (TrackingType_name ty));
                (js "data", data)]) in
  fst (track config ty d w) = Ok tt
  /\ payloads (snd (track config ty d w)) = payloads w ++ [(ty, data)]
  /\ beacons (snd (track config ty d w)) = beacons w ++ [url]
  /\ document_body (snd (track config ty d w))
     = (fun children => children ++ [{| display := js "none"; src := url |}])
         <$> document_body w.
Proof.
  intros Hf. cbv zeta.
  split; [|split; [apply track_effects|]];
    rewrite track_spec; unfold beacon_src; rewrite Hf; [reflexivity|].
  destruct (identified_frame w) as (_ & _ & _ & _ & Hb & Hd).
  cbn [fst snd].
  unfold with_image. world_simpl. rewrite Hd.
  destruct (document_body w); world_simpl; rewrite Hb; split; reflexivity.
Qed.

(** One call of [view], [purchase], [addToCart], [setCart] or
    [removeFromCart] and the identity. *)
Lemma event_call_identity t data ty d h w config :
  event_of t data = Some (ty, d) ->
  current_config w h = Some config ->
  (forall n, generateId n <> []) ->
  let w' := snd (call_tracker t h data w) in
  exists payload,
    payloads w' = payloads w ++ [(ty, payload)]
    /\ if truthy (stored_identity w) then
         generated w' = generated w
         /\ cookies w' !! cookie_user_id = cookies w !! cookie_user_id
         /\ payload_field "user" payload ≫= payload_field "id"
            = Some (stored_identity w)
         /\ stored_identity w' = stored_identity w
       else
         let id := generateId (generated w) in
         generated w' = S (generated w)
         /\ cookies w' !! cookie_user_id
            = Some (VString id, (30 * 24 * 60 * 60 * 1000)%Z)
         /\ payload_field "user" payload ≫= payload_field "id"
            = Some (VString id)
         /\ stored_identity w' = VString id
         /\ truthy (stored_identity w') = true.
Proof.
  intros Hev Hcfg Hgen. cbv zeta.
  rewrite (call_event _ _ _ _ _ _ _ Hev Hcfg).
  set (w0 := before_event t data w).
  destruct (track_effects config ty d w0)
    as (_ & _ & _ & Hck & Hg & Hp).
  destruct (before_event_identity t data w)
    as (Hid0 & Hck0 & Hg0 & Hp0 & _).
  fold w0 in Hid0, Hck0, Hg0, Hp0.
  eexists. split; [rewrite Hp, Hp0; reflexivity|].
  rewrite payload_data_user. cbn [mbind option_bind].
  rewrite payload_user_id.
  assert (Hsid : forall w1 w2, cookies w1 = cookies w2 ->
                               stored_identity w1 = stored_identity w2)
    by (intros w1 w2 E; unfold stored_identity; now rewrite E).
  rewrite (Hsid _ _ Hck), Hck, Hg.
  destruct (truthy (stored_identity w)) eqn:Hpresent.
  - rewrite identified_present by congruence.
    repeat split; congruence.
  - destruct (identified_absent w0) as (Hg1 & Hck1 & Hid1);
      [congruence|].
    rewrite Hg0 in *. rewrite Hg1, Hck1, Hid1.
    assert (Hjs : js_or (VString (generateId (generated w))) VNull
                  = VString (generateId (generated w))).
    { unfold js_or. cbn. specialize (Hgen (generated w)).
      destruct (generateId (generated w)); [congruence | reflexivity]. }
    rewrite Hjs. repeat split.
    cbn. specialize (Hgen (generated w)).
    destruct (generateId (generated w)); [congruence | reflexivity].
Qed.

(** C2.  A call of [view], [purchase], [addToCart], [setCart] or
    [removeFromCart] builds one payload.  With an identity stored, no
    identifier is generated, the identity cookie stays as it is and the
    payload's [user.id] is the stored identity.  With none stored,
    exactly one identifier is generated, it is stored under
    [paypal-user-id] for thirty days, the payload's [user.id] is that
    identifier, and it is the stored identity afterwards.  In both cases
    any further such call generates nothing and leaves the identity
    cookie as it is.  Identifiers are taken to be non-empty strings;
    an identity is stored when [getUserIdCookie()] is truthy. *)
Theorem identity_generated_once t data ty d h w config :
  event_of t data = Some (ty, d) ->
  current_config w h = Some config ->
  (forall n, generateId n <> []) ->
  let w' := snd (call_tracker t h data w) in
  exists payload,
    payloads w' = payloads w ++ [(ty, payload)]
    /\ (if truthy (stored_identity w) then
         generated w' = generated w
         /\ cookies w' !! cookie_user_id = cookies w !! cookie_user_id
         /\ payload_field "user" payload ≫= payload_field "id"
            = Some (stored_identity w)
         /\ stored_identity w' = stored_identity w
       else
         let id := generateId (generated w) in
         generated w' = S (generated w)
         /\ cookies w' !! cookie_user_id
            = Some (VString id, (30 * 24 * 60 * 60 * 1000)%Z)
         /\ payload_field "user" payload ≫= payload_field "id"
            = Some (VString id)
         /\ stored_identity w' = VString id
         /\ truthy (stored_identity w') = true)
    /\ forall t2 data2 ty2 d2,
        event_of t2 data2 = Some (ty2, d2) ->
        let w'' := snd (call_tracker t2 h data2 w') in
        generated w'' = generated w'
        /\ cookies w'' !! cookie_user_id = cookies w' !! cookie_user_id.
Proof.
  intros Hev Hcfg Hgen. cbv zeta.
  destruct (event_call_identity t data ty d h w config Hev Hcfg Hgen)
    as (payload & Hp & Hid).
  exists payload. split; [exact Hp|]. split; [exact Hid|].
  intros t2 data2 ty2 d2 Hev2.
  destruct (call_tracker_frame t h data w config Hcfg)
    as (_ & config' & Hcfg' & _).
  destruct (event_call_identity t2 data2 ty2 d2 h _ config' Hev2 Hcfg' Hgen)
    as (payload2 & _ & Hid2).
  assert (Htruthy : truthy (stored_identity (snd (call_tracker t h data w)))
                    = true).
  { destruct (truthy (stored_identity w)) eqn:Hpresent.
    - destruct Hid as (_ & _ & _ & Hs). rewrite Hs. exact Hpresent.
    - cbv zeta in Hid. destruct Hid as (_ & _ & _ & _ & Ht). exact Ht. }
  rewrite Htruthy in Hid2. destruct Hid2 as (Hg & Hc & _).
  split; [exact Hg | exact Hc].
Qed.

Lemma cart_event_discriminator config c data id :
  payload_field "cartEventType"
    (payload_data config CartEvent
       (VObject (obj_set (js "cartEventType")
                   (VString (CartEventType_name c)) (spread [] data))) id)
  = Some (VString (CartEventType_name c)).
Proof.
  unfold payload_field.
  set (d := VObject _).
  pose proof (payload_data_copied config CartEvent d id
                (js "cartEventType")) as H.
  destruct (payload_data config CartEvent d id) eqn:E;
    try (unfold payload_data in E; discriminate E).
  rewrite H.
  - subst d. rewrite spread_nil_object.
    + apply obj_lookup_set_eq.
    + apply obj_set_NoDup, spread_NoDup. constructor.
  - intros Hin. vm_compute in Hin.
    repeat (apply elem_of_cons in Hin as [Hin|Hin]; [discriminate Hin|]).
    inversion Hin.
Qed.

Lemma new_or_stored_spec data u x config k :
  get_prop data (js "user") = Ok u ->
  get_prop u (js k) = Ok x ->
  new_or_stored data config (js k)
  = Ok (if truthy x then x else stored_user_field config k).
Proof.
  intros Hu Hx. unfold new_or_stored. rewrite Hu, Hx.
  destruct (truthy x); [reflexivity|].
  unfold stored_user_field, payload_field, js_or.
  destruct (user config) as [| |[]|[]| |]; reflexivity.
Qed.

Lemma call_tracker_payloads t h data w config :
  current_config w h = Some config ->
  t <> T_setProperty ->
  exists new,
    payloads (snd (call_tracker t h data w)) = payloads w ++ new
    /\ Forall (fun tp => payload_field "property" (snd tp)
                         = Some (property config)) new.
Proof.
  intros Hcfg Ht.
  destruct (event_of t data) as [[ty d]|] eqn:Hev.
  - rewrite (call_event _ _ _ _ _ _ _ Hev Hcfg).
    destruct (track_effects config ty d
                (before_event t data w)) as (_ & _ & _ & _ & _ & Hp).
    destruct (before_event_identity t data w) as (_ & _ & _ & Hp0 & _).
    eexists. split; [rewrite Hp, Hp0; reflexivity|].
    constructor; [|constructor]. apply payload_data_property.
  - destruct t; try discriminate Hev; [|congruence].
    cbn [call_tracker]. rewrite (setUser_spec _ _ _ _ Hcfg).
    destruct (new_or_stored _ _ (js "email")) as [email|e];
      [|exists []; cbn; rewrite app_nil_r; split; [reflexivity|constructor]].
    destruct (new_or_stored _ _ (js "name")) as [name|e];
      [|exists []; cbn; rewrite app_nil_r; split; [reflexivity|constructor]].
    cbv zeta.
    match goal with
    | |- context [track ?c ?ty ?d ?w0] =>
        destruct (track_effects c ty d w0)
          as (_ & _ & _ & _ & _ & Hp)
    end.
    eexists. split; [exact Hp|].
    constructor; [|constructor]. cbn [snd].
    rewrite payload_data_property. reflexivity.
Qed.

Lemma run_calls_property h calls : forall w config,
  current_config w h = Some config ->
  Forall (fun c => fst c <> T_setProperty) calls ->
  exists new,
    payloads (run_calls h calls w) = payloads w ++ new
    /\ Forall (fun tp => payload_field "property" (snd tp)
                         = Some (property config)) new.
Proof.
  induction calls as [|[t data] calls IH]; intros w config Hcfg Hall.
  - exists []. cbn. rewrite app_nil_r. split; [reflexivity|constructor].
  - inversion Hall as [|? ? Ht Hall']; subst. cbn in Ht.
    cbn [run_calls].
    destruct (call_tracker_payloads t h data w config Hcfg Ht)
      as (new1 & Hp1 & Hall1).
    destruct (call_tracker_frame
                t h data w config Hcfg)
      as (_ & config' & Hcfg' & _ & _ & Hprop).
    destruct (IH _ _ Hcfg' Hall') as (new2 & Hp2 & Hall2).
    exists (new1 ++ new2). split.
    + rewrite Hp2, Hp1, app_assoc. reflexivity.
    + apply Forall_app. split; [exact Hall1|].
      rewrite <- (Hprop Ht). exact Hall2.
Qed.

(** C7.  [setProperty] with a [data.property.id] to read: the call
    returns, and the world after it differs from the world before only
    in the configuration object of the handle, which is the same object
    as before with [{ id }] as its [property] and its [user], URL
    override and credentials as they were; no image is requested, no
    payload built, no cookie written, the catalog client not called.
    Every payload built by later calls on the handle, in any number and
    with any data, has that [property], as long as none of them is
    [setProperty]. *)
Theorem setProperty_in_place h data p id w l config :
  closures w !! h = Some l ->
  heap w !! l = Some config ->
  get_prop data (js "property") = Ok p ->
  get_prop p (js "id") = Ok id ->
  let config' := with_property config id in
  let w' := set_heap (<[l := config']> (heap w)) w in
  setProperty h data w = (Ok tt, w')
  /\ closures w' !! h = Some l
  /\ heap w' !! l = Some config'
  /\ property config' = VObject [(js "id", id)]
  /\ user config' = user config
  /\ paramsToBeaconUrl config' = paramsToBeaconUrl config
  /\ jetlore config' = jetlore config
  /\ beacons w' = beacons w
  /\ payloads w' = payloads w
  /\ document_body w' = document_body w
  /\ cookies w' = cookies w
  /\ jl_calls w' = jl_calls w
  /\ forall calls,
      Forall (fun c => fst c <> T_setProperty) calls ->
      exists new,
        payloads (run_calls h calls w') = payloads w ++ new
        /\ Forall (fun tp => payload_field "property" (snd tp)
                             = Some (VObject [(js "id", id)])) new.
Proof.
  intros Hl Hc Hp Hid. cbv zeta.
  rewrite (setProperty_spec _ _ _ _ _ Hl Hc), Hp, Hid.
  split; [reflexivity|]. split; [exact Hl|].
  split; [apply lookup_insert_eq|].
  repeat (split; [reflexivity|]).
  intros calls Hall.
  destruct (run_calls_property h calls
              (set_heap (<[l := with_property config id]> (heap w)) w)
              (with_property config id)) as (new & Hnew & Hprop).
  - unfold current_config. world_simpl. rewrite Hl. cbn.
    apply lookup_insert_eq.
  - exact Hall.
  - exists new. split; [exact Hnew | exact Hprop].
Qed.

Lemma trackEvent_no_credentials h type data w config :
  current_config w h = Some config ->
  jetlore config = None ->
  jl_calls (snd (trackEvent h type data w)) = jl_calls w
  /\ exists config',
      current_config (snd (trackEvent h type data w)) h = Some config'
      /\ jetlore config' = None.
Proof.
  intros Hcfg Hj. unfold trackEvent.
  rewrite (bind_ok _ _ _ _ _ (read_config_spec _ _ _ Hcfg)).
  rewrite Hj. cbn [bool_decide andb]. unfold bind at 1. cbn [ret].
  destruct (own_tracker type) as [t|].
  - destruct (call_tracker_frame
                t h data w config Hcfg) as (Hjl & config' & Hc' & Hj' & _).
    split; [exact Hjl|]. exists config'. split; [exact Hc' | congruence].
  - destruct (object_prototype type); cbn; (split; [reflexivity|]);
      exists config; auto.
Qed.

(** C6.  With no catalog credentials in the configuration of a handle,
    no call is made on the catalog client by [trackEvent], whatever the
    type and the data, and for any number of calls in a row. *)
Theorem no_credentials_no_forwarding h events w config :
  current_config w h = Some config ->
  jetlore config = None ->
  jl_calls (run_events h events w) = jl_calls w.
Proof.
  revert w config.
  induction events as [|[type data] events IH]; intros w config Hcfg Hj.
  - reflexivity.
  - cbn [run_events].
    destruct (trackEvent_no_credentials h type data w config Hcfg Hj)
      as (Hjl & config' & Hcfg' & Hj').
    rewrite (IH _ _ Hcfg' Hj'). exact Hjl.
Qed.

Lemma getJetlorePayload_object o payload :
  getJetlorePayload (VObject o) payload = Ok VUndefined.
Proof. reflexivity. Qed.

(** C3 (what the code does).  With credentials configured and a type of
    the list, [trackEvent] called with an object as data makes one call
    on the handler of the catalog client for that type, and the payload
    it passes is [undefined]: [getJetlorePayload] is called with the data
    in the place of the type and with no payload, so no [case] of its
    [switch] is taken. *)
Theorem jetlore_payload_is_undefined h type o w config j :
  current_config w h = Some config ->
  jetlore config = Some j ->
  type ∈ jetloreTrackTypes ->
  jl_calls (snd (trackEvent h type (VObject o) w))
  = jl_calls w ++ [JL_tracker type VUndefined].
Proof.
  intros Hcfg Hj Hin. unfold trackEvent.
  rewrite (bind_ok _ _ _ _ _ (read_config_spec _ _ _ Hcfg)).
  rewrite Hj. rewrite (bool_decide_eq_true_2 _ Hin).
  rewrite bool_decide_eq_true_2 by eauto.
  cbn [andb truthy]. rewrite getJetlorePayload_object.
  unfold bind at 1. unfold bind at 1. cbn [lift JL_call modify].
  set (w1 := set_jl_calls _ w).
  assert (Hcfg1 : current_config w1 h = Some config) by exact Hcfg.
  destruct (own_tracker type) as [t|].
  - destruct (call_tracker_frame
                t h (VObject o) w1 config Hcfg1) as (Hjl & _).
    exact Hjl.
  - destruct (object_prototype type); reflexivity.
Qed.

(** C9 (what the code does).  [__proto__] is not a type of the catalog
    list and not a function of [trackers], and [trackEvent] raises a
    [TypeError] on it: [trackers["__proto__"]] is the prototype object,
    which is truthy and is not a function. *)
Theorem trackEvent_proto_throws h data w config :
  current_config w h = Some config ->
  (js "__proto__" ∉ jetloreTrackTypes)
  /\ own_tracker (js "__proto__") = None
  /\ fst (trackEvent h (js "__proto__") data w) = Throw TypeError.
Proof.
  intros Hcfg. split; [|split].
  - intros Hin. vm_compute in Hin.
    repeat (apply elem_of_cons in Hin as [Hin|Hin]; [discriminate Hin|]).
    inversion Hin.
  - reflexivity.
  - unfold trackEvent.
    rewrite (bind_ok _ _ _ _ _ (read_config_spec _ _ _ Hcfg)).
    assert (Hnot : bool_decide (js "__proto__" ∈ jetloreTrackTypes) = false)
      by reflexivity.
    rewrite Hnot.
    replace (bool_decide (is_Some (jetlore config))
             && match jetlore config with
                | Some _ => false
                | None => false
                end && truthy data) with false
      by (destruct (jetlore config), (bool_decide _); reflexivity).
    reflexivity.
Qed.

(** A type that is in neither list and is not the name of a member of
    [Object.prototype] does nothing. *)
Lemma trackEvent_unknown_type h type data w config :
  current_config w h = Some config ->
  type ∉ jetloreTrackTypes ->
  own_tracker type = None ->
  object_prototype type = None ->
  trackEvent h type data w = (Ok tt, w).
Proof.
  intros Hcfg Hnot Hown Hproto. unfold trackEvent.
  rewrite (bind_ok _ _ _ _ _ (read_config_spec _ _ _ Hcfg)).
  rewrite (bool_decide_eq_false_2 _ Hnot), Hown, Hproto.
  replace (bool_decide (is_Some (jetlore config))
           && match jetlore config with
              | Some _ => false
              | None => false
              end && truthy data) with false
    by (destruct (jetlore config), (bool_decide _); reflexivity).
  reflexivity.
Qed.

(** C10 (amended).  [Tracker] on a configuration with credentials makes
    one call of [JL.tracking].  The object it passes has [cid],
    [user_id] and [feed_id] from the credentials; it has no [div] when
    the credentials have a non-empty [div], a [div] that is [undefined]
    when they have none, and a [div] that is the empty string when
    theirs is the empty string; and likewise for [lang]. *)
Theorem jetlore_init_copies_falsy_only arg config j w :
  heap w !! default defaultTrackerConfig_ref arg = Some config ->
  jetlore config = Some j ->
  let tc := jetlore_trackingConfig j in
  jl_calls (snd (Tracker arg w)) = jl_calls w ++ [JL_tracking tc]
  /\ payload_field "cid" tc = Some (VString (access_token j))
  /\ payload_field "user_id" tc = Some (VString (user_id j))
  /\ payload_field "feed_id" tc = Some (VString (feed_id j))
  /\ payload_field "div" tc
     = match div j with
       | Some (_ :: _) => None
       | Some [] => Some (VString [])
       | None => Some VUndefined
       end
  /\ payload_field "lang" tc
     = match lang j with
       | Some (_ :: _) => None
       | Some [] => Some (VString [])
       | None => Some VUndefined
       end.
Proof.
  intros Hc Hj. cbv zeta. split.
  - unfold Tracker. rewrite (bind_ok _ _ _ _ _ (deref_spec _ _ _ Hc)).
    rewrite Hj. reflexivity.
  - unfold jetlore_trackingConfig.
    destruct (div j) as [[|c s]|], (lang j) as [[|c' s']|];
      repeat split; reflexivity.
Qed.

(** ** Base64 *)

Ltac Zify.zify_post_hook ::= Z.to_euclidean_division_equations.

Ltac bool_cases :=
  repeat match goal with
    | |- context [N.ltb ?a ?b] => destruct (N.ltb_spec a b)
    | |- context [N.leb ?a ?b] => destruct (N.leb_spec a b)
    | |- context [N.eqb ?a ?b] => destruct (N.eqb_spec a b)
    end; cbn [andb orb negb].

Lemma list_ind3 {A} (P : list A -> Prop) :
  P [] -> (forall a, P [a]) -> (forall a b, P [a; b]) ->
  (forall a b c r, P r -> P (a :: b :: c :: r)) ->
  forall l, P l.
Proof.
  intros H0 H1 H2 H3.
  fix IH 1. intros [|a [|b [|c r]]];
    [exact H0 | apply H1 | apply H2 | apply H3, IH].
Qed.

Lemma b64_index_char i : i < 64 -> b64_index (b64_char i) = Some i.
Proof.
  intros Hi. unfold b64_char. bool_cases; unfold b64_index;
    bool_cases; try lia; f_equal; lia.
Qed.

Lemma b64_char_not_pad i : b64_char i <> 61.
Proof. unfold b64_char. bool_cases; lia. Qed.

Lemma b64_char_not_ws i : is_ascii_ws (b64_char i) = false.
Proof.
  unfold b64_char. bool_cases; unfold is_ascii_ws; bool_cases;
    try reflexivity; lia.
Qed.

Lemma b64_sextets_bound s :
  Forall (fun c => c < 256) s -> Forall (fun i => i < 64) (b64_sextets s).
Proof.
  induction s as [|a|a b|a b c r IH] using list_ind3; intros Hs; cbn.
  - constructor.
  - inversion Hs; subst. repeat constructor; lia.
  - inversion Hs as [|? ? Ha Hs']; subst. inversion Hs'; subst.
    repeat constructor; lia.
  - inversion Hs as [|? ? Ha Hs1]; subst.
    inversion Hs1 as [|? ? Hb Hs2]; subst.
    inversion Hs2 as [|? ? Hc Hs3]; subst.
    repeat (constructor; [lia|]). auto.
Qed.

Lemma b64_decode_sextets s :
  Forall (fun c => c < 256) s -> b64_decode (b64_sextets s) = s.
Proof.
  induction s as [|a|a b|a b c r IH] using list_ind3; intros Hs; cbn.
  - reflexivity.
  - inversion Hs; subst. f_equal. lia.
  - inversion Hs as [|? ? Ha Hs']; subst. inversion Hs'; subst.
    f_equal; [lia|]. f_equal. lia.
  - inversion Hs as [|? ? Ha Hs1]; subst.
    inversion Hs1 as [|? ? Hb Hs2]; subst.
    inversion Hs2 as [|? ? Hc Hs3]; subst.
    rewrite (IH Hs3). f_equal; [lia|]. f_equal; [lia|]. f_equal. lia.
Qed.

Lemma mapM_b64_index sx :
  Forall (fun i => i < 64) sx -> mapM b64_index (map b64_char sx) = Some sx.
Proof.
  induction 1 as [|i sx Hi _ IH]; cbn.
  - reflexivity.
  - rewrite (b64_index_char _ Hi). cbn. rewrite IH. reflexivity.
Qed.

Lemma length_b64_sextets_padding s :
  ((length (b64_sextets s) + length (b64_padding s)) mod 4 = 0)%nat
  /\ (length (b64_sextets s) mod 4 <> 1)%nat.
Proof.
  induction s as [|a|a b|a b c r IH] using list_ind3.
  - split; [reflexivity | discriminate].
  - split; [reflexivity | discriminate].
  - split; [reflexivity | discriminate].
  - assert (Hpad : b64_padding (a :: b :: c :: r) = b64_padding r).
    { unfold b64_padding. cbn [length].
      replace (S (S (S (length r)))) with (length r + 1 * 3)%nat by lia.
      now rewrite Nat.Div0.mod_add. }
    rewrite Hpad. cbn [b64_sextets length].
    destruct IH as [IH1 IH2]. split.
    + replace (S (S (S (S (length (b64_sextets r))))) + length (b64_padding r))%nat
        with (length (b64_sextets r) + length (b64_padding r) + 1 * 4)%nat
        by lia.
      now rewrite Nat.Div0.mod_add.
    + replace (S (S (S (S (length (b64_sextets r))))))
        with (length (b64_sextets r) + 1 * 4)%nat by lia.
      now rewrite Nat.Div0.mod_add.
Qed.

Lemma b64_padding_cases s :
  b64_padding s = [] \/ b64_padding s = [61]  \/ b64_padding s = [61; 61].
Proof.
  unfold b64_padding. destruct (length s mod 3)%nat as [|[|[|n]]]; auto.
Qed.

Lemma strip_padding_encode s :
  strip_padding (b64_encode s) = map b64_char (b64_sextets s).
Proof.
  unfold b64_encode, strip_padding.
  set (x := b64_sextets s).
  assert (Hrev : rev (map b64_char x) = []
                 \/ exists i t, rev (map b64_char x) = b64_char i :: t).
  { rewrite <- map_rev. destruct (rev x) as [|i t]; [left | right]; eauto. }
  assert (Hx : rev (rev (map b64_char x)) = map b64_char x)
    by apply rev_involutive.
  rewrite rev_app_distr.
  destruct (b64_padding_cases s) as [Hp|[Hp|Hp]]; rewrite Hp; cbn [rev app].
  - rewrite app_nil_r.
    destruct Hrev as [Hr|(i & t & Hr)]; rewrite Hr; [reflexivity|].
    destruct (N.eqb_spec (b64_char i) 61) as [E|_]; [|reflexivity].
    now apply b64_char_not_pad in E.
  - cbn [N.eqb Pos.eqb].
    destruct Hrev as [Hr|(i & t & Hr)]; rewrite Hr in *.
    + exact Hx.
    + destruct (N.eqb_spec (b64_char i) 61) as [E|_]; [|exact Hx].
      now apply b64_char_not_pad in E.
  - cbn [N.eqb Pos.eqb]. exact Hx.
Qed.

Lemma filter_ws_encode s :
  List.filter (fun c => negb (is_ascii_ws c)) (b64_encode s) = b64_encode s.
Proof.
  apply forallb_filter_id. apply forallb_forall. intros c Hc.
  unfold b64_encode in Hc. apply in_app_or in Hc as [Hc|Hc].
  - apply in_map_iff in Hc as (i & <- & _). now rewrite b64_char_not_ws.
  - destruct (b64_padding_cases s) as [Hp|[Hp|Hp]]; rewrite Hp in Hc;
      cbn in Hc; intuition (subst; reflexivity).
Qed.

(** [atob] undoes [btoa]. *)
Lemma atob_btoa s b : btoa s = Ok b -> atob b = Some s.
Proof.
  unfold btoa. destruct (forallb is_byte s) eqn:Hbytes; [|discriminate].
  intros [= <-].
  assert (Hs : Forall (fun c => c < 256) s).
  { apply Forall_forall. intros c Hc.
    rewrite forallb_forall in Hbytes. apply list_elem_of_In in Hc.
    specialize (Hbytes c Hc). unfold is_byte in Hbytes.
    now apply N.ltb_lt. }
  unfold atob. rewrite filter_ws_encode.
  destruct (length_b64_sextets_padding s) as [Hlen Hlen'].
  assert (Hl : (length (b64_encode s) mod 4 =? 0)%nat = true).
  { apply Nat.eqb_eq. unfold b64_encode. now rewrite length_app, length_map. }
  rewrite Hl, strip_padding_encode, length_map.
  destruct (Nat.eqb_spec (length (b64_sextets s) mod 4) 1) as [E|_];
    [contradiction|].
  rewrite mapM_b64_index by now apply b64_sextets_bound.
  cbn. now rewrite b64_decode_sextets.
Qed.

(** ** Percent encoding *)

Lemma hex_value_upper d : d < 16 -> hex_value (hex_digit_upper d) = Some d.
Proof.
  intros Hd. unfold hex_digit_upper. bool_cases; unfold hex_value;
    bool_cases; try lia; f_equal; lia.
Qed.

Lemma hex_value_lower d : d < 16 -> hex_value (hex_digit_lower d) = Some d.
Proof.
  intros Hd. unfold hex_digit_lower. bool_cases; unfold hex_value;
    bool_cases; try lia; f_equal; lia.
Qed.

Lemma hex2_value_percent_byte b :
  b < 256 ->
  hex2_value (hex_digit_upper (b / 16)) (hex_digit_upper (b mod 16)) = Some b.
Proof.
  intros Hb. unfold hex2_value.
  rewrite !hex_value_upper by lia. cbn. f_equal. lia.
Qed.

Lemma unreserved_not_percent c : is_uri_unreserved c = true -> c <> 37.
Proof. intros H ->. discriminate H. Qed.

Lemma encodeURIComponent_ascii_decodes s :
  Forall (fun c => c < 128) s ->
  exists e, encodeURIComponent s = Some e /\ (length e <= 3 * length s)%nat
            /\ forall fuel, (length e <= fuel)%nat -> decode_uri fuel e = Some s.
Proof.
  induction 1 as [|c s Hc _ (e & He & Hlen & Hdec)].
  - exists []. repeat split; [cbn; lia|]. intros fuel _. now destruct fuel.
  - cbn [encodeURIComponent]. rewrite He. cbn [mbind option_bind].
    destruct (is_uri_unreserved c) eqn:Hu.
    + exists (c :: e). split; [reflexivity|]. split; [cbn; lia|].
      intros [|fuel] Hf; [cbn in Hf; lia|]. cbn [decode_uri].
      apply unreserved_not_percent in Hu.
      destruct (N.eqb_spec c 37); [contradiction|].
      rewrite Hdec by (cbn in Hf; lia). reflexivity.
    + assert (Hlow : is_low_surrogate c = false)
        by (unfold is_low_surrogate; bool_cases; try reflexivity; lia).
      assert (Hhigh : is_high_surrogate c = false)
        by (unfold is_high_surrogate; bool_cases; try reflexivity; lia).
      rewrite Hlow, Hhigh.
      assert (Hp : percent_encode c
                   = [37; hex_digit_upper (c / 16); hex_digit_upper (c mod 16)]).
      { unfold percent_encode, utf8_bytes.
        destruct (N.ltb_spec c 128); [reflexivity | lia]. }
      rewrite Hp. eexists. split; [reflexivity|]. split; [cbn; lia|].
      intros [|fuel] Hf; [cbn in Hf; lia|].
      cbn [app decode_uri N.eqb Pos.eqb].
      rewrite hex2_value_percent_byte by lia. cbn [mbind option_bind].
      destruct (N.ltb_spec c 128); [|lia].
      rewrite Hdec by (cbn in Hf; lia). reflexivity.
Qed.

Lemma b64_char_ascii i : b64_char i < 128.
Proof. unfold b64_char. bool_cases; lia. Qed.

Lemma b64_encode_ascii s : Forall (fun c => c < 128) (b64_encode s).
Proof.
  unfold b64_encode. apply Forall_app. split.
  - apply Forall_forall. intros c Hc. apply list_elem_of_In in Hc.
    apply in_map_iff in Hc as (i & <- & _). apply b64_char_ascii.
  - destruct (b64_padding_cases s) as [Hp|[Hp|Hp]]; rewrite Hp;
      repeat constructor.
Qed.

(** [decodeURIComponent] undoes [encodeURIComponent] on ASCII text, and
    Base64 text is ASCII. *)
Lemma decodeURIComponent_encode_ascii s :
  Forall (fun c => c < 128) s ->
  exists e, encodeURIComponent s = Some e /\ decodeURIComponent e = Some s.
Proof.
  intros Hs.
  destruct (encodeURIComponent_ascii_decodes s Hs) as (e & He & _ & Hdec).
  exists e. split; [exact He|]. apply Hdec. reflexivity.
Qed.

(** ** JSON text *)

Lemma value_ind' (P : value -> Prop) :
  P VUndefined -> P VNull -> (forall b, P (VBool b)) ->
  (forall s, P (VString s)) ->
  (forall l, Forall P l -> P (VArray l)) ->
  (forall ps, Forall (fun kv => P (snd kv)) ps -> P (VObject ps)) ->
  forall v, P v.
Proof.
  intros Hu Hn Hb Hs Ha Ho.
  fix IH 1. intros [| |b|s|l|ps].
  - exact Hu.
  - exact Hn.
  - apply Hb.
  - apply Hs.
  - apply Ha. induction l as [|x l IHl]; constructor; [apply IH | exact IHl].
  - apply Ho. induction ps as [|[k x] ps IHps]; constructor;
      [apply IH | exact IHps].
Qed.

(** *** String literals *)

Lemma parse_unicode_escape c t :
  c < 65536 ->
  parse_string_body (unicode_escape c ++ t)
  = '(x, rest) ← parse_string_body t; Some (c :: x, rest).
Proof.
  intros Hc. unfold unicode_escape. cbn [app parse_string_body N.eqb Pos.eqb].
  unfold hex4_value. rewrite !hex_value_lower by lia.
  cbn [mbind option_bind].
  replace (c / 4096 * 4096 + c / 256 mod 16 * 256 + c / 16 mod 16 * 16
           + c mod 16) with c by lia.
  reflexivity.
Qed.

Lemma parse_literal_unit c t :
  c <> 34 -> c <> 92 -> 32 <= c ->
  parse_string_body (c :: t)
  = '(x, rest) ← parse_string_body t; Some (c :: x, rest).
Proof.
  intros H1 H2 H3. cbn [parse_string_body].
  destruct (N.eqb_spec c 34); [contradiction|].
  destruct (N.eqb_spec c 92); [contradiction|].
  destruct (N.ltb_spec c 32); [lia|]. reflexivity.
Qed.

Lemma parse_quote_unit c t :
  is_high_surrogate c = false -> is_low_surrogate c = false ->
  parse_string_body (quote_unit c ++ t)
  = '(x, rest) ← parse_string_body t; Some (c :: x, rest).
Proof.
  intros Hh Hl. unfold quote_unit.
  destruct (N.eqb_spec c 8) as [->|]; [reflexivity|].
  destruct (N.eqb_spec c 9) as [->|]; [reflexivity|].
  destruct (N.eqb_spec c 10) as [->|]; [reflexivity|].
  destruct (N.eqb_spec c 12) as [->|]; [reflexivity|].
  destruct (N.eqb_spec c 13) as [->|]; [reflexivity|].
  destruct (N.eqb_spec c 34) as [->|]; [reflexivity|].
  destruct (N.eqb_spec c 92) as [->|]; [reflexivity|].
  destruct (N.ltb_spec c 32).
  - apply parse_unicode_escape. lia.
  - now apply parse_literal_unit.
Qed.

Lemma surrogate_literal c :
  is_high_surrogate c = true \/ is_low_surrogate c = true ->
  c <> 34 /\ c <> 92 /\ 32 <= c /\ c < 65536.
Proof.
  unfold is_high_surrogate, is_low_surrogate.
  intros [H|H]; apply andb_true_iff in H as [H1 H2];
    apply N.leb_le in H1, H2; lia.
Qed.

Lemma parse_quote_units s : forall rest,
  parse_string_body (quote_units s ++ 34 :: rest) = Some (s, rest).
Proof.
  remember (length s) as n eqn:Hn.
  revert s Hn. induction n as [n IH] using lt_wf_ind. intros s Hn rest.
  destruct s as [|c r]; [reflexivity|].
  cbn [quote_units].
  destruct (is_high_surrogate c) eqn:Hh.
  - destruct (surrogate_literal c (or_introl Hh)) as (H1 & H2 & H3 & H4).
    destruct r as [|d r'].
    + rewrite parse_unicode_escape by exact H4. reflexivity.
    + destruct (is_low_surrogate d) eqn:Hl.
      * destruct (surrogate_literal d (or_intror Hl)) as (D1 & D2 & D3 & _).
        cbn [app]. rewrite parse_literal_unit by assumption.
        rewrite parse_literal_unit by assumption.
        rewrite (IH (length r')) by (subst n; cbn; lia || reflexivity).
        reflexivity.
      * rewrite <- app_assoc, parse_unicode_escape by exact H4.
        rewrite (IH (length (d :: r'))) by (subst n; cbn; lia || reflexivity).
        reflexivity.
  - destruct (is_low_surrogate c) eqn:Hl.
    + destruct (surrogate_literal c (or_intror Hl)) as (_ & _ & _ & H4).
      rewrite <- app_assoc, parse_unicode_escape by exact H4.
      rewrite (IH (length r)) by (subst n; cbn; lia || reflexivity).
      reflexivity.
    + rewrite <- app_assoc, parse_quote_unit by assumption.
      rewrite (IH (length r)) by (subst n; cbn; lia || reflexivity).
      reflexivity.
Qed.
(** *** Values *)

Lemma stringify_None v : stringify v = None <-> v = VUndefined.
Proof. destruct v; cbn; split; congruence. Qed.

Lemma stringify_array l :
  stringify (VArray l) = Some (91 :: join_comma (map element_text l) ++ [93]).
Proof. reflexivity. Qed.

Lemma json_norm_array l : json_norm (VArray l) = VArray (map element_norm l).
Proof. reflexivity. Qed.

Lemma omap_member_text ps :
  omap (fun kv : jstring * value =>
          match kv with (k, x) => member_text k (stringify x) end) ps
  = map defined_member_text (defined_members ps).
Proof.
  induction ps as [|[k x] ps IH]; [reflexivity|].
  cbn [omap list_omap defined_members List.filter snd].
  fold (defined_members ps).
  destruct x; cbn [is_defined]; try exact IH;
    cbn [map]; rewrite <- IH; reflexivity.
Qed.

Lemma omap_member_norm ps :
  omap (fun kv : jstring * value =>
          match kv with
          | (k, x) => match x with
                      | VUndefined => None
                      | _ => Some (k, json_norm x)
                      end
          end) ps
  = map member_norm (defined_members ps).
Proof.
  induction ps as [|[k x] ps IH]; [reflexivity|].
  cbn [omap list_omap defined_members List.filter snd].
  fold (defined_members ps).
  destruct x; cbn [is_defined]; try exact IH;
    cbn [map]; rewrite <- IH; reflexivity.
Qed.

Lemma stringify_object ps :
  stringify (VObject ps)
  = Some (123 :: join_comma (map defined_member_text (defined_members ps))
            ++ [125]).
Proof. cbn [stringify]. now rewrite omap_member_text. Qed.

Lemma json_norm_object ps :
  json_norm (VObject ps) = VObject (map member_norm (defined_members ps)).
Proof. cbn [json_norm]. now rewrite omap_member_norm. Qed.

Lemma element_text_opens x :
  exists c t, element_text x = c :: t /\ opens_value c.
Proof.
  unfold opens_value.
  destruct x as [| |[]|s|l|ps]; cbn; eauto 10.
Qed.

Lemma skip_ws_opens c t : opens_value c -> skip_ws (c :: t) = c :: t.
Proof.
  unfold opens_value. intros H.
  repeat (destruct H as [->|H]; [reflexivity|]). subst. reflexivity.
Qed.

Lemma length_join_comma_cons x l :
  l <> [] ->
  join_comma (x :: l) = x ++ 44 :: join_comma l.
Proof. destruct l; [congruence | reflexivity]. Qed.

Lemma parse_element x :
  reads_back x -> distinct_keys x ->
  forall fuel rest, (length (element_text x) <= fuel)%nat ->
  parse_value fuel (element_text x ++ rest) = Some (element_norm x, rest).
Proof.
  intros Hx Hd fuel rest Hf. unfold element_text in *.
  destruct (stringify x) as [s|] eqn:Hs.
  - cbn [default from_option id] in *. rewrite (Hx s Hs Hd fuel rest Hf).
    destruct x; try reflexivity. discriminate Hs.
  - apply stringify_None in Hs. subst x. cbn [default from_option] in *.
    destruct fuel as [|fuel]; [vm_compute in Hf; lia|]. reflexivity.
Qed.

Lemma distinct_keys_array l :
  distinct_keys (VArray l) <-> Forall distinct_keys l.
Proof.
  cbn [distinct_keys]. induction l as [|x l IH]; cbn [fold_right].
  - split; constructor.
  - rewrite IH. split; [intros [? ?]; now constructor | now inversion 1].
Qed.

Lemma distinct_keys_object ps :
  distinct_keys (VObject ps)
  <-> NoDup (map fst ps) /\ Forall (fun kv => distinct_keys (snd kv)) ps.
Proof.
  cbn [distinct_keys]. apply and_iff_compat_l.
  induction ps as [|kv ps IH]; cbn [fold_right].
  - split; constructor.
  - rewrite IH. split; [intros [? ?]; now constructor | now inversion 1].
Qed.

Lemma parse_elements_text l :
  Forall reads_back l ->
  Forall distinct_keys l ->
  l <> [] ->
  forall fuel rest,
    (length (join_comma (map element_text l)) + 1 <= fuel)%nat ->
    parse_elements fuel (join_comma (map element_text l) ++ 93 :: rest)
    = Some (map element_norm l, rest).
Proof.
  induction 1 as [|x l Hx Hl IH]; [congruence|].
  intros Hd _ fuel rest Hf.
  inversion Hd as [|? ? Hdx Hdl]; subst.
  destruct fuel as [|fuel]; [lia|].
  destruct (element_text_opens x) as (c & t & Hc & Hopen).
  destruct l as [|y l].
  - cbn [map join_comma] in *. cbn [parse_elements].
    rewrite (parse_element x Hx Hdx) by lia.
    reflexivity.
  - change (map element_text (x :: y :: l))
      with (element_text x :: map element_text (y :: l)) in *.
    rewrite length_join_comma_cons in * by discriminate.
    rewrite length_app in Hf. cbn [length] in Hf.
    assert (1 <= length (element_text x))%nat by (rewrite Hc; cbn; lia).
    rewrite <- app_assoc. cbn [parse_elements].
    rewrite (parse_element x Hx Hdx) by lia.
    cbn [mbind option_bind app skip_ws is_json_ws N.eqb Pos.eqb orb].
    rewrite IH by (assumption || discriminate || lia).
    reflexivity.
Qed.


Lemma defined_member_text_app k x tail :
  defined_member_text (k, x) ++ tail
  = 34 :: quote_units k ++ 34 :: 58 :: element_text x ++ tail.
Proof.
  unfold defined_member_text, quote_json_string. cbn [fst snd app].
  now rewrite <- !app_assoc.
Qed.

Lemma parse_members_text ps :
  Forall (fun kv => reads_back (snd kv)) ps ->
  Forall (fun kv => distinct_keys (snd kv)) ps ->
  Forall (fun kv => is_defined (snd kv) = true) ps ->
  ps <> [] ->
  forall fuel rest,
    (length (join_comma (map defined_member_text ps)) + 1 <= fuel)%nat ->
    parse_members fuel (join_comma (map defined_member_text ps) ++ 125 :: rest)
    = Some (map member_norm ps, rest).
Proof.
  induction 1 as [|[k x] ps Hx Hps IH]; [congruence|].
  intros Hd Hdef _ fuel rest Hf.
  inversion Hd as [|? ? Hdx Hdps]; subst.
  inversion Hdef as [|? ? Hdefx Hdefps]; subst.
  cbn [snd] in Hx, Hdx, Hdefx.
  destruct fuel as [|fuel]; [lia|].
  assert (Hnorm : element_norm x = json_norm x)
    by (destruct x; [discriminate Hdefx | reflexivity ..]).
  assert (Hlen : (length (defined_member_text (k, x))
                  = length (quote_units k) + 3 + length (element_text x))%nat).
  { unfold defined_member_text, quote_json_string. cbn [fst snd].
    repeat (rewrite length_app || cbn [length app]). lia. }
  destruct ps as [|kv ps].
  - cbn [map join_comma] in *.
    rewrite defined_member_text_app. cbn [parse_members].
    cbn [skip_ws is_json_ws N.eqb Pos.eqb orb].
    rewrite parse_quote_units.
    cbn [mbind option_bind skip_ws is_json_ws N.eqb Pos.eqb orb].
    rewrite (parse_element x Hx Hdx) by lia.
    rewrite Hnorm. reflexivity.
  - change (map defined_member_text ((k, x) :: kv :: ps))
      with (defined_member_text (k, x) :: map defined_member_text (kv :: ps))
      in *.
    rewrite length_join_comma_cons in * by discriminate.
    rewrite length_app in Hf. cbn [length] in Hf.
    rewrite <- app_assoc, defined_member_text_app. cbn [parse_members].
    cbn [skip_ws is_json_ws N.eqb Pos.eqb orb].
    rewrite parse_quote_units.
    cbn [mbind option_bind skip_ws is_json_ws N.eqb Pos.eqb orb].
    rewrite (parse_element x Hx Hdx) by lia.
    cbn [mbind option_bind app skip_ws is_json_ws N.eqb Pos.eqb orb].
    rewrite IH by (assumption || discriminate || lia).
    rewrite Hnorm. reflexivity.
Qed.

Lemma defined_members_keys ps :
  NoDup (map fst ps) -> NoDup (map fst (map member_norm (defined_members ps))).
Proof.
  rewrite map_map. cbn [member_norm fst].
  induction ps as [|[k x] ps IH]; cbn [defined_members List.filter map fst snd].
  - constructor.
  - intros Hnd. apply NoDup_cons in Hnd as [Hk Hnd].
    fold (defined_members ps).
    destruct (is_defined x); [|now apply IH].
    cbn [map fst]. apply NoDup_cons. split; [|now apply IH].
    intros Hin. apply Hk.
    apply list_elem_of_In, in_map_iff in Hin as ([k' x'] & Hk' & Hin).
    cbn in Hk'. subst k'. apply filter_In in Hin as [Hin _].
    apply list_elem_of_In, in_map_iff. now exists (k, x').
Qed.

Lemma Forall_defined_members (P : jstring * value -> Prop) ps :
  Forall P ps -> Forall P (defined_members ps).
Proof.
  rewrite !Forall_forall. intros H kv Hin. apply H.
  apply list_elem_of_In. apply list_elem_of_In in Hin.
  now apply filter_In in Hin as [? _].
Qed.

Lemma defined_members_defined ps :
  Forall (fun kv => is_defined (snd kv) = true) (defined_members ps).
Proof.
  apply Forall_forall. intros kv Hin. apply list_elem_of_In in Hin.
  now apply filter_In in Hin as [_ ?].
Qed.

(** Every value is read back from its text. *)
Lemma parse_stringify v : reads_back v.
Proof.
  induction v as [| |b|s0|l IH|ps IH] using value_ind';
    intros s Hs Hd fuel rest Hf.
  - discriminate Hs.
  - injection Hs as <-. destruct fuel; [vm_compute in Hf; lia | reflexivity].
  - injection Hs as <-.
    destruct b; (destruct fuel; [vm_compute in Hf; lia | reflexivity]).
  - injection Hs as <-. destruct fuel; [cbn in Hf; lia|].
    unfold quote_json_string. cbn [app parse_value].
    cbn [skip_ws is_json_ws N.eqb Pos.eqb orb].
    rewrite <- app_assoc. cbn [app]. rewrite parse_quote_units. reflexivity.
  - rewrite stringify_array in Hs. injection Hs as <-.
    rewrite json_norm_array. apply distinct_keys_array in Hd.
    destruct fuel; [cbn in Hf; lia|].
    destruct l as [|x l]; [reflexivity|].
    destruct (element_text_opens x) as (c & t & Hc & Hopen).
    cbn [app parse_value]. cbn [skip_ws is_json_ws N.eqb Pos.eqb orb].
    rewrite <- app_assoc. cbn [app].
    cbn [length] in Hf. rewrite length_app in Hf. cbn [length] in Hf.
    rewrite parse_elements_text by (assumption || discriminate || lia).
    assert (Hhead : exists c' t',
               join_comma (map element_text (x :: l)) ++ 93 :: rest = c' :: t'
               /\ opens_value c').
    { destruct l; cbn [map join_comma]; rewrite Hc; cbn [app]; eauto. }
    destruct Hhead as (c' & t' & -> & Hopen').
    rewrite (skip_ws_opens _ _ Hopen').
    unfold opens_value in Hopen'.
    repeat (destruct Hopen' as [->|Hopen']; [reflexivity|]).
    subst. reflexivity.
  - rewrite stringify_object in Hs. injection Hs as <-.
    rewrite json_norm_object. apply distinct_keys_object in Hd as [Hnd Hd].
    destruct fuel; [cbn in Hf; lia|].
    pose proof (Forall_defined_members _ _ IH) as IH'.
    pose proof (Forall_defined_members _ _ Hd) as Hd'.
    pose proof (defined_members_defined ps) as Hdef.
    pose proof (defined_members_keys ps Hnd) as Hnd'.
    destruct (defined_members ps) as [|[k x] dps]; [reflexivity|].
    cbn [app parse_value]. cbn [skip_ws is_json_ws N.eqb Pos.eqb orb].
    rewrite <- app_assoc. cbn [app].
    cbn [length] in Hf. rewrite length_app in Hf. cbn [length] in Hf.
    rewrite parse_members_text by (assumption || discriminate || lia).
    assert (Hhead : exists t',
               join_comma (map defined_member_text ((k, x) :: dps))
                 ++ 125 :: rest = 34 :: t').
    { destruct dps; cbn [map join_comma]; unfold defined_member_text,
        quote_json_string; cbn [app]; eauto. }
    destruct Hhead as (t' & ->).
    cbn [skip_ws is_json_ws N.eqb Pos.eqb orb mbind option_bind].
    unfold object_of_members.
    rewrite fold_obj_set_distinct by exact Hnd'. reflexivity.
Qed.

(** [JSON.parse] undoes [JSON.stringify] up to what a JSON text can
    carry. *)
Lemma JSON_parse_stringify v s :
  stringify v = Some s -> distinct_keys v ->
  JSON_parse s = Some (json_norm v).
Proof.
  intros Hs Hd. unfold JSON_parse.
  rewrite <- (app_nil_r s) at 2.
  rewrite (parse_stringify v s Hs Hd) by lia. reflexivity.
Qed.

(** ** The beacon URL *)

Lemma distinct_keys_obj_set k v o :
  distinct_keys (VObject o) -> distinct_keys v ->
  distinct_keys (VObject (obj_set k v o)).
Proof.
  rewrite !distinct_keys_object. intros [Hnd Ho] Hv.
  split; [now apply obj_set_NoDup|].
  clear Hnd. induction Ho as [|[k' v'] o Hv' Ho IH]; cbn [obj_set].
  - now repeat constructor.
  - destruct (decide (k = k')); constructor; auto.
Qed.

Lemma own_props_distinct_keys v :
  distinct_keys v -> Forall (fun kv => distinct_keys (snd kv)) (own_props v).
Proof.
  destruct v as [| |b|s|l|ps]; cbn [own_props]; intros Hd;
    try constructor.
  - apply Forall_forall. intros kv Hin.
    apply elem_of_lookup_imap in Hin as (i & c & -> & _). exact I.
  - apply distinct_keys_array in Hd. rewrite Forall_forall in Hd.
    apply Forall_forall. intros kv Hin.
    apply elem_of_lookup_imap in Hin as (i & x & -> & Hx).
    apply Hd. eapply list_elem_of_lookup_2. exact Hx.
  - now apply distinct_keys_object in Hd as [_ Hd].
Qed.

Lemma spread_distinct_keys acc v :
  distinct_keys (VObject acc) -> distinct_keys v ->
  distinct_keys (VObject (spread acc v)).
Proof.
  intros Hacc Hv. apply own_props_distinct_keys in Hv.
  unfold spread. revert acc Hacc.
  induction Hv as [|[k x] l Hx Hl IH]; intros acc Hacc; cbn [fold_left].
  - exact Hacc.
  - apply IH. now apply distinct_keys_obj_set.
Qed.

Lemma payload_data_distinct_keys config ty d id :
  distinct_keys d -> distinct_keys (user config) ->
  distinct_keys (property config) -> distinct_keys id ->
  distinct_keys (payload_data config ty d id).
Proof.
  intros Hd Hu Hp Hid. unfold payload_data, payload_user.
  assert (Hnil : distinct_keys (VObject [])) by (split; constructor).
  repeat (apply distinct_keys_obj_set; try exact I; try assumption).
  all: now apply spread_distinct_keys.
Qed.

Lemma identified_distinct_keys w :
  distinct_keys (stored_identity w) ->
  distinct_keys (stored_identity (identified w)).
Proof.
  intros H. destruct (truthy (stored_identity w)) eqn:Hid.
  - now rewrite identified_present.
  - destruct (identified_absent w Hid) as (_ & _ & ->).
    unfold js_or. destruct (truthy (VString _)); exact I.
Qed.

(** C1 (amended).  Without a URL override, for tracking data and a
    configuration whose objects are objects (no name twice in one
    object), and when the JSON text of the merged payload has no code
    unit above 255: [track] returns; the URL it requests is the template
    [https://www.paypal.com/targeting/track/<trackingType>?data=<enc>]
    with the name of the tracking type and with [enc] the
    percent-encoding of the Base64 form of that JSON text; and
    percent-decoding, Base64-decoding and JSON-parsing [enc] gives the
    merged payload as JSON carries it, that is without the properties
    whose value is [undefined] and with [null] for [undefined] array
    elements. *)
Theorem beacon_url_round_trip config ty d w :
  paramsToBeaconUrl config = None ->
  distinct_keys d ->
  distinct_keys (user config) ->
  distinct_keys (property config) ->
  distinct_keys (stored_identity w) ->
  let data := payload_data config ty d (stored_identity (identified w)) in
  forallb is_byte (serialized data) = true ->
  exists text b64 enc,
    stringify data = Some text
    /\ btoa text = Ok b64
    /\ encodeURIComponent b64 = Some enc
    /\ fst (track config ty d w) = Ok tt
    /\ payloads (snd (track config ty d w)) = payloads w ++ [(ty, data)]
    /\ beacons (snd (track config ty d w))
       = beacons w
           ++ [js "https://www.paypal.com/targeting/track/"
                 ++ TrackingType_name ty ++ js "?data=" ++ enc]
    /\ decode_data enc = Some (json_norm data).
Proof.
  intros Hno Hd Hu Hp Hid data Hbytes.
  assert (Hdk : distinct_keys data).
  { apply payload_data_distinct_keys;
      auto using identified_distinct_keys. }
  destruct (stringify data) as [text|] eqn:Htext;
    [|unfold data, payload_data in Htext; discriminate Htext].
  assert (Hser : serialized data = text)
    by (unfold serialized, JSON_stringify; now rewrite Htext).
  rewrite Hser in Hbytes.
  assert (Hbtoa : btoa text = Ok (b64_encode text))
    by (unfold btoa; now rewrite Hbytes).
  destruct (decodeURIComponent_encode_ascii (b64_encode text)
              (b64_encode_ascii text)) as (enc & Henc & Hdec).
  exists text, (b64_encode text), enc.
  assert (Hdata : encodeData data = Ok enc).
  { unfold encodeData. fold (serialized data).
    now rewrite Hser, Hbtoa, Henc. }
  repeat (split; [assumption || reflexivity|]).
  split; [|split; [apply track_effects|]];
    rewrite track_spec; fold data; unfold beacon_src; rewrite Hno, Hdata;
    cbn [fst snd]; [reflexivity|].
  split.
  - destruct (identified_frame w) as (_ & _ & _ & _ & Hb & _).
    unfold with_image.
    destruct (document_body _); world_simpl; rewrite Hb;
      unfold beacon_url_prefix; now rewrite <- !app_assoc.
  - unfold decode_data. rewrite Hdec. cbn [mbind option_bind].
    rewrite (atob_btoa _ _ Hbtoa). cbn [mbind option_bind].
    now apply JSON_parse_stringify.
Qed.

(** ** Construction *)

(** [Tracker] returns a new handle on the configuration it was given, or
    on the default one, after one call of [JL.tracking] when the
    configuration has credentials and none otherwise. *)
Lemma Tracker_spec arg config w :
  heap w !! default defaultTrackerConfig_ref arg = Some config ->
  let h := fresh (dom (closures w)) in
  let w1 :=
    match jetlore config with
    | Some j =>
        set_jl_calls (jl_calls w ++ [JL_tracking (jetlore_trackingConfig j)]) w
    | None => w
    end in
  Tracker arg w
  = (Ok h,
     set_closures
       (<[h := default defaultTrackerConfig_ref arg]> (closures w)) w1).
Proof.
  intros Hc. unfold Tracker.
  rewrite (bind_ok _ _ _ _ _ (deref_spec _ _ _ Hc)).
  destruct (jetlore config); reflexivity.
Qed.

Lemma Tracker_current_config arg config w :
  heap w !! default defaultTrackerConfig_ref arg = Some config ->
  current_config (snd (Tracker arg w)) (fresh (dom (closures w)))
  = Some config.
Proof.
  intros Hc. rewrite (Tracker_spec _ _ _ Hc). cbv zeta. cbn [snd].
  unfold current_config. world_simpl. rewrite lookup_insert_eq. cbn.
  destruct (jetlore config); exact Hc.
Qed.

(** ** Further properties: [getJetlorePayload] *)

Lemma pick_fields_object o keys :
  pick_fields (VObject o) keys
  = Ok (VObject (map (fun k => (k, own_or_undefined o k)) keys)).
Proof.
  unfold pick_fields.
  assert (H : read_fields (VObject o) keys
              = Ok (map (fun k => (k, own_or_undefined o k)) keys)).
  { induction keys as [|k keys IH]; [reflexivity|].
    cbn [read_fields map]. rewrite get_prop_object, IH. reflexivity. }
  now rewrite H.
Qed.

Lemma pick_fields_undefined payload k keys :
  payload = VUndefined \/ payload = VNull ->
  pick_fields payload (k :: keys) = Throw TypeError.
Proof. intros [->| ->]; reflexivity. Qed.

(** X1.  [getJetlorePayload] with a type of the [switch] and no payload
    raises a [TypeError]; the types of the [switch] are the types of
    [jetloreTrackTypes], and for any other type the function returns
    [undefined] whatever the payload. *)
Theorem getJetlorePayload_switch_is_allow_list type :
  (type ∈ jetloreTrackTypes ->
   getJetlorePayload (VString type) VUndefined = Throw TypeError
   /\ getJetlorePayload (VString type) VNull = Throw TypeError)
  /\ (type ∉ jetloreTrackTypes ->
      forall payload, getJetlorePayload (VString type) payload = Ok VUndefined).
Proof.
  split.
  - intros Hin. unfold jetloreTrackTypes in Hin.
    repeat (apply elem_of_cons in Hin as [->|Hin]; [split; reflexivity|]).
    inversion Hin.
  - intros Hnot payload.
    assert (Hne : forall s, s ∈ jetloreTrackTypes ->
                            strict_eq_string (VString type) s = false).
    { intros s Hs. cbn [strict_eq_string].
      apply bool_decide_eq_false_2. intros ->. contradiction. }
    unfold getJetlorePayload.
    rewrite !Hne by (unfold jetloreTrackTypes; repeat constructor).
    reflexivity.
Qed.

(** ** Further properties: the payload of [track] *)

Lemma payload_data_clientId config ty d id :
  payload_field "clientId" (payload_data config ty d id)
  = Some (VString clientID).
Proof.
  unfold payload_data, payload_field.
  repeat (rewrite obj_lookup_set_ne by distinct_names).
  apply obj_lookup_set_eq.
Qed.

Lemma payload_data_merchantId config ty d id :
  payload_field "merchantId" (payload_data config ty d id)
  = Some (VString (join_comma merchantID)).
Proof. apply obj_lookup_set_eq. Qed.

Lemma cookies_stored_identity w1 w2 :
  cookies w1 = cookies w2 -> stored_identity w1 = stored_identity w2.
Proof. intros E. unfold stored_identity. now rewrite E. Qed.

(** Closed facts about lists of names, by evaluation. *)
Ltac listed := apply (bool_decide_unpack _); vm_compute; exact I.

(** X2.  For a type other than the four wish-list and favourites types,
    [getJetlorePayload] on an object either returns [undefined] for
    every payload, or there is a list of names, fixed by the type and
    taken from the names of the object literals of the [switch], such
    that for every payload the result is the object that has exactly
    those names, in that order, each with the value the payload has
    under it ([undefined] when the payload has none): nothing else of
    the payload gets through. *)
Theorem getJetlorePayload_projects type :
  is_list_payload_type type = false ->
  (forall o, getJetlorePayload type (VObject o) = Ok VUndefined)
  \/ exists keys,
      keys <> []
      /\ NoDup keys
      /\ Forall (fun k => k ∈ jetlore_field_names) keys
      /\ forall o,
          getJetlorePayload type (VObject o)
          = Ok (VObject (map (fun k => (k, own_or_undefined o k)) keys)).
Proof.
  unfold is_list_payload_type. intros Hlist.
  assert (Hkeys : forall keys,
             keys <> [] ->
             NoDup keys ->
             Forall (fun k => k ∈ jetlore_field_names) keys ->
             (forall o, getJetlorePayload type (VObject o)
                        = pick_fields (VObject o) keys) ->
             (forall o, getJetlorePayload type (VObject o) = Ok VUndefined)
             \/ exists keys,
                 keys <> []
                 /\ NoDup keys
                 /\ Forall (fun k => k ∈ jetlore_field_names) keys
                 /\ forall o,
                     getJetlorePayload type (VObject o)
                     = Ok (VObject (map (fun k => (k, own_or_undefined o k))
                                      keys))).
  { intros keys Hne Hnd Hin Hget. right. exists keys.
    split; [exact Hne|]. split; [exact Hnd|]. split; [exact Hin|].
    intros o. rewrite Hget. apply pick_fields_object. }
  destruct (strict_eq_string type (js "addToCart")
            || strict_eq_string type (js "removeFromCart")
            || strict_eq_string type (js "purchase")) eqn:H1.
  { apply (Hkeys [js "deal_id"; js "option_id"; js "count"]);
      [discriminate | listed | listed |].
    intros o. unfold getJetlorePayload. now rewrite H1. }
  destruct (strict_eq_string type (js "search")) eqn:H2.
  { apply (Hkeys [js "text"]); [discriminate | listed | listed |].
    intros o. unfold getJetlorePayload. now rewrite H1, H2. }
  destruct (strict_eq_string type (js "view")
            || strict_eq_string type (js "browse_section")) eqn:H3.
  { apply (Hkeys [js "name"; js "refinements"]);
      [discriminate | listed | listed |].
    intros o. unfold getJetlorePayload. now rewrite H1, H2, H3. }
  destruct (strict_eq_string type (js "browse_promo")) eqn:H4.
  { apply (Hkeys [js "name"; js "id"]);
      [discriminate | listed | listed |].
    intros o. unfold getJetlorePayload. now rewrite H1, H2, H3, H4. }
  destruct (strict_eq_string type (js "track")) eqn:H5.
  { apply (Hkeys [js "event"; js "deal_id"; js "count"; js "price";
                  js "title"; js "option_id"; js "text"]);
      [discriminate | listed | listed |].
    intros o. unfold getJetlorePayload.
    now rewrite H1, H2, H3, H4, Hlist, H5. }
  left. intros o. unfold getJetlorePayload.
  now rewrite H1, H2, H3, H4, Hlist, H5.
Qed.

(** X3.  [track] builds one payload, whether it returns or raises.  In
    it, [trackingType], [clientId], [merchantId] and [property] are the
    tracking type, the client identifier, the merchant identifiers
    joined by commas and the property of the configuration, and
    [user.id] is the identity stored after the call, whatever the
    tracking data has under those names; every property of the tracking
    data under another name is in the payload with its value. *)
Theorem track_payload_fields config ty o w :
  NoDup (map fst o) ->
  let w' := snd (track config ty (VObject o) w) in
  exists payload,
    payloads w' = payloads w ++ [(ty, payload)]
    /\ payload_field "trackingType" payload
       = Some (VString (TrackingType_name ty))
    /\ payload_field "clientId" payload = Some (VString clientID)
    /\ payload_field "merchantId" payload
       = Some (VString (join_comma merchantID))
    /\ payload_field "property" payload = Some (property config)
    /\ payload_field "user" payload ≫= payload_field "id"
       = Some (stored_identity w')
    /\ forall k, k ∉ track_field_names ->
                 obj_lookup k (object_props payload) = obj_lookup k o.
Proof.
  intros Hnd. cbv zeta.
  destruct (track_effects config ty (VObject o) w)
    as (_ & _ & _ & Hck & _ & Hp).
  eexists. split; [exact Hp|].
  split; [apply payload_data_trackingType|].
  split; [apply payload_data_clientId|].
  split; [apply payload_data_merchantId|].
  split; [apply payload_data_property|].
  split.
  - rewrite payload_data_user. cbn [mbind option_bind].
    rewrite payload_user_id. f_equal. symmetry.
    now apply cookies_stored_identity.
  - intros k Hk.
    pose proof (payload_data_copied config ty (VObject o)
                  (stored_identity (identified w)) k Hk) as H.
    unfold object_props. rewrite H. now rewrite spread_nil_object.
Qed.

(** X4.  [addToCart], [setCart] and [removeFromCart] build one payload
    of type [cartEvent] whose [cartEventType] names the function, also
    when the data has a [cartEventType] of its own; the other
    properties of the data are in the payload; and [setCart] and
    [removeFromCart] leave the cart snapshot cookie as it is. *)
Theorem cart_event_payload c h o w config :
  current_config w h = Some config ->
  NoDup (map fst o) ->
  let w' := snd (call_tracker (cart_function c) h (VObject o) w) in
  exists payload,
    payloads w' = payloads w ++ [(CartEvent, payload)]
    /\ payload_field "cartEventType" payload
       = Some (VString (CartEventType_name c))
    /\ payload_field "trackingType" payload = Some (VString (js "cartEvent"))
    /\ (forall k, k ∉ js "cartEventType" :: track_field_names ->
                  obj_lookup k (object_props payload) = obj_lookup k o)
    /\ (c <> AddToCart ->
        cookies w' !! cookie_cart = cookies w !! cookie_cart).
Proof.
  intros Hcfg Hnd. cbv zeta.
  set (d := VObject (obj_set (js "cartEventType")
                       (VString (CartEventType_name c))
                       (spread [] (VObject o)))).
  assert (Hev : event_of (cart_function c) (VObject o) = Some (CartEvent, d))
    by (destruct c; reflexivity).
  rewrite (call_event _ _ _ _ _ _ _ Hev Hcfg).
  set (w0 := before_event (cart_function c) (VObject o) w).
  destruct (track_effects config CartEvent d w0)
    as (_ & _ & _ & Hck & _ & Hp).
  destruct (before_event_identity (cart_function c) (VObject o) w)
    as (_ & _ & _ & Hp0 & _).
  eexists. split; [rewrite Hp; fold w0 in Hp0; rewrite Hp0; reflexivity|].
  split; [apply cart_event_discriminator|].
  split; [apply payload_data_trackingType|].
  split.
  - intros k Hk. unfold object_props.
    rewrite (payload_data_copied config CartEvent d).
    + subst d. rewrite spread_nil_object
        by (apply obj_set_NoDup, spread_NoDup; constructor).
      rewrite obj_lookup_set_ne
        by (intros ->; apply Hk; left).
      now rewrite spread_nil_object.
    + intros Hin. apply Hk. now right.
  - intros Hc. rewrite Hck. subst w0.
    assert (Hw0 : before_event (cart_function c) (VObject o) w = w)
      by (destruct c; [congruence | reflexivity ..]).
    rewrite Hw0. unfold identified.
    destruct (truthy (stored_identity w)); [reflexivity|].
    world_simpl. now rewrite lookup_insert_ne by distinct_names.
Qed.

(** ** Further properties: the encoding and the image *)



Lemma encodeData_latin1 data :
  forallb is_byte (serialized data) = true ->
  exists enc,
    encodeData data = Ok enc
    /\ encodeURIComponent (b64_encode (serialized data)) = Some enc
    /\ decodeURIComponent enc = Some (b64_encode (serialized data)).
Proof.
  intros Hbytes. unfold encodeData. fold (serialized data).
  destruct (decodeURIComponent_encode_ascii _
              (b64_encode_ascii (serialized data))) as (enc & Henc & Hdec).
  exists enc. unfold btoa. rewrite Hbytes, Henc. repeat split; assumption.
Qed.

Lemma encodeData_not_latin1 data :
  forallb is_byte (serialized data) = false ->
  encodeData data = Throw InvalidCharacterError.
Proof.
  intros Hbytes. unfold encodeData. fold (serialized data).
  unfold btoa. now rewrite Hbytes.
Qed.



(** X7.  When [track] returns it has requested one URL and, if the
    document has a body, appended to it one image that is not displayed
    and has that URL as its source; without a body nothing is appended.
    When it raises it has requested and appended nothing, but the
    identity it made sure of stays stored and the payload was built. *)
Theorem track_image config ty d w :
  let w' := snd (track config ty d w) in
  cookies w' = cookies (identified w)
  /\ match fst (track config ty d w) with
     | Ok _ =>
         exists url,
           beacons w' = beacons w ++ [url]
           /\ document_body w'
              = (fun children =>
                   children ++ [{| display := js "none"; src := url |}])
                  <$> document_body w
     | Throw _ =>
         beacons w' = beacons w /\ document_body w' = document_body w
     end.
Proof.
  cbv zeta. split; [apply track_effects|].
  rewrite track_spec.
  destruct (identified_frame w) as (_ & _ & _ & _ & Hb & Hd).
  destruct (beacon_src _ _ _) as [url|e]; cbn [fst snd].
  - exists url. unfold with_image. world_simpl. rewrite Hd.
    destruct (document_body w); world_simpl; rewrite Hb; split; reflexivity.
  - world_simpl. split; assumption.
Qed.

(** ** Further properties: the functions of the handle *)

Lemma get_prop_throws v k e : get_prop v k = Throw e -> e = TypeError.
Proof. destruct v; cbn; congruence. Qed.

(** X8.  [setUser] with data that has no [user] (or that is itself
    [undefined] or [null]) raises a [TypeError] and changes nothing: the
    configuration stays, nothing is tracked and no identity is made. *)
Theorem setUser_without_user h data w config :
  current_config w h = Some config ->
  (forall u, get_prop data (js "user") = Ok u -> u = VUndefined \/ u = VNull) ->
  setUser h data w = (Throw TypeError, w).
Proof.
  intros Hcfg Hu. rewrite (setUser_spec _ _ _ _ Hcfg).
  unfold new_or_stored.
  destruct (get_prop data (js "user")) as [u|e] eqn:Hget.
  - destruct (Hu u eq_refl) as [->| ->]; reflexivity.
  - now rewrite (get_prop_throws _ _ _ Hget).
Qed.

(** X9.  [setProperty] with data that has no [property] (or that is
    itself [undefined] or [null]) raises a [TypeError] and changes
    nothing: the configuration keeps the property it had. *)
Theorem setProperty_without_property h data w l config :
  closures w !! h = Some l ->
  heap w !! l = Some config ->
  (forall p, get_prop data (js "property") = Ok p ->
             p = VUndefined \/ p = VNull) ->
  setProperty h data w = (Throw TypeError, w).
Proof.
  intros Hl Hc Hp. rewrite (setProperty_spec _ _ _ _ _ Hl Hc).
  destruct (get_prop data (js "property")) as [p|e] eqn:Hget.
  - destruct (Hp p eq_refl) as [->| ->]; reflexivity.
  - now rewrite (get_prop_throws _ _ _ Hget).
Qed.

Lemma fresh_heap_lookup w l config :
  heap w !! l = Some config -> l <> fresh (dom (heap w)).
Proof.
  intros Hl ->.
  apply (is_fresh (dom (heap w))). apply elem_of_dom. eauto.
Qed.

(** X10.  A call of a function of one handle other than [setProperty]
    leaves the configuration of every other handle as it is, also when
    the two handles work on the same object: [setUser] makes a new
    object for its own handle and does not write to the old one. *)
Theorem other_handles_unaffected t h h' data w config config' :
  t <> T_setProperty ->
  h' <> h ->
  current_config w h = Some config ->
  current_config w h' = Some config' ->
  current_config (snd (call_tracker t h data w)) h' = Some config'.
Proof.
  intros Ht Hne Hcfg Hcfg'.
  destruct (event_of t data) as [[ty d]|] eqn:Hev.
  - rewrite (call_event _ _ _ _ _ _ _ Hev Hcfg).
    destruct (track_effects config ty d (before_event t data w))
      as (Hh & Hc & _).
    destruct (before_event_identity t data w)
      as (_ & _ & _ & _ & Hh' & Hc' & _).
    unfold current_config in *. now rewrite Hc, Hh, Hc', Hh'.
  - destruct t; try discriminate Hev; [|congruence].
    cbn [call_tracker]. rewrite (setUser_spec _ _ _ _ Hcfg).
    destruct (new_or_stored _ _ (js "email")) as [email|e]; [|exact Hcfg'].
    destruct (new_or_stored _ _ (js "name")) as [name|e]; [|exact Hcfg'].
    cbv zeta.
    match goal with
    | |- context [track ?c ?ty ?d ?w0] =>
        destruct (track_effects c ty d w0) as (Hh & Hc & _)
    end.
    unfold current_config in *. rewrite Hc, Hh. world_simpl.
    rewrite lookup_insert_ne by congruence.
    destruct (closures w !! h') as [l'|]; [|discriminate Hcfg'].
    cbn [mbind option_bind] in *.
    rewrite lookup_insert_ne; [exact Hcfg'|].
    symmetry. exact (fresh_heap_lookup _ _ _ Hcfg').
Qed.

Lemma user_field_payload_data config ty d id k :
  k <> js "id" ->
  user_field k (payload_data config ty d id)
  = obj_lookup k (spread [] (user config)).
Proof.
  intros Hk. unfold user_field. rewrite payload_data_user.
  unfold payload_user. now rewrite obj_lookup_set_ne.
Qed.

Lemma call_tracker_user_frame t h data w config :
  t <> T_setUser ->
  current_config w h = Some config ->
  exists config',
    current_config (snd (call_tracker t h data w)) h = Some config'
    /\ user config' = user config.
Proof.
  intros Ht Hcfg.
  destruct (event_of t data) as [[ty d]|] eqn:Hev.
  - rewrite (call_event _ _ _ _ _ _ _ Hev Hcfg).
    destruct (track_effects config ty d (before_event t data w))
      as (Hh & Hc & _).
    destruct (before_event_identity t data w)
      as (_ & _ & _ & _ & Hh' & Hc' & _).
    exists config. split; [|reflexivity].
    unfold current_config in *. now rewrite Hc, Hh, Hc', Hh'.
  - destruct t; try discriminate Hev; [congruence|].
    cbn [call_tracker].
    destruct (current_config_inv _ _ _ Hcfg) as (l & Hl & Hc).
    rewrite (setProperty_spec _ _ _ _ _ Hl Hc).
    destruct (get_prop data (js "property")) as [p|e];
      [|exists config; auto].
    destruct (get_prop p (js "id")) as [id|e]; [|exists config; auto].
    exists (with_property config id). split; [|reflexivity].
    cbn [snd]. unfold current_config. world_simpl. rewrite Hl. cbn.
    apply lookup_insert_eq.
Qed.

Lemma call_tracker_user_payloads t h data w config :
  t <> T_setUser ->
  current_config w h = Some config ->
  exists new,
    payloads (snd (call_tracker t h data w)) = payloads w ++ new
    /\ Forall (fun tp => forall k, k <> js "id" ->
                 user_field k (snd tp)
                 = obj_lookup k (spread [] (user config))) new.
Proof.
  intros Ht Hcfg.
  destruct (event_of t data) as [[ty d]|] eqn:Hev.
  - rewrite (call_event _ _ _ _ _ _ _ Hev Hcfg).
    destruct (track_effects config ty d (before_event t data w))
      as (_ & _ & _ & _ & _ & Hp).
    destruct (before_event_identity t data w) as (_ & _ & _ & Hp0 & _).
    eexists. split; [rewrite Hp, Hp0; reflexivity|].
    constructor; [|constructor]. intros k Hk. cbn [snd].
    now apply user_field_payload_data.
  - destruct t; try discriminate Hev; [congruence|].
    cbn [call_tracker].
    destruct (current_config_inv _ _ _ Hcfg) as (l & Hl & Hc).
    rewrite (setProperty_spec _ _ _ _ _ Hl Hc).
    exists []. rewrite app_nil_r. split; [|constructor].
    destruct (get_prop data (js "property")) as [p|e]; [|reflexivity].
    destruct (get_prop p (js "id")); reflexivity.
Qed.

Lemma run_calls_user h calls : forall w config,
  current_config w h = Some config ->
  Forall (fun c => fst c <> T_setUser) calls ->
  exists new,
    payloads (run_calls h calls w) = payloads w ++ new
    /\ Forall (fun tp => forall k, k <> js "id" ->
                 user_field k (snd tp)
                 = obj_lookup k (spread [] (user config))) new.
Proof.
  induction calls as [|[t data] calls IH]; intros w config Hcfg Hall.
  - exists []. cbn. rewrite app_nil_r. split; [reflexivity|constructor].
  - inversion Hall as [|? ? Ht Hall']; subst. cbn in Ht.
    cbn [run_calls].
    destruct (call_tracker_user_payloads t h data w config Ht Hcfg)
      as (new1 & Hp1 & Hall1).
    destruct (call_tracker_user_frame t h data w config Ht Hcfg)
      as (config' & Hcfg' & Huser).
    destruct (IH _ _ Hcfg' Hall') as (new2 & Hp2 & Hall2).
    exists (new1 ++ new2). split.
    + rewrite Hp2, Hp1, app_assoc. reflexivity.
    + apply Forall_app. split; [exact Hall1|].
      rewrite <- Huser. exact Hall2.
Qed.

(** X11.  After a [setUser] with a [data.user] to read from, the payload
    of that call and every payload built by later calls on the handle,
    in any number and with any data, has as [user.email] and [user.name]
    the values that [setUser] chose (the new one when given, the stored
    one otherwise), as long as none of the later calls is [setUser]. *)
Theorem setUser_then_payloads h data u email name calls w config :
  current_config w h = Some config ->
  get_prop data (js "user") = Ok u ->
  get_prop u (js "email") = Ok email ->
  get_prop u (js "name") = Ok name ->
  Forall (fun c => fst c <> T_setUser) calls ->
  let e := if truthy email then email else stored_user_field config "email" in
  let n := if truthy name then name else stored_user_field config "name" in
  exists first later,
    payloads (run_calls h ((T_setUser, data) :: calls) w)
    = payloads w ++ first :: later
    /\ fst first = SetUser
    /\ Forall (fun tp => user_field (js "email") (snd tp) = Some e
                         /\ user_field (js "name") (snd tp) = Some n)
         (first :: later).
Proof.
  intros Hcfg Hu He Hn Hall. cbv zeta.
  set (e := if truthy email then _ else _).
  set (n := if truthy name then _ else _).
  cbn [run_calls call_tracker].
  assert (Hspread :
            spread [] (user (with_user config e n))
            = obj_set (js "name") n
                (obj_set (js "email") e (spread [] (user config)))).
  { cbn [with_user user]. apply spread_nil_object.
    apply obj_set_NoDup, obj_set_NoDup, spread_NoDup. constructor. }
  assert (Hfields : forall ty d id,
             user_field (js "email") (payload_data (with_user config e n) ty d id)
             = Some e
             /\ user_field (js "name")
                  (payload_data (with_user config e n) ty d id) = Some n).
  { intros ty d id.
    rewrite !user_field_payload_data by distinct_names. rewrite Hspread.
    split; [|apply obj_lookup_set_eq].
    rewrite obj_lookup_set_ne by distinct_names. apply obj_lookup_set_eq. }
  pose proof (setUser_spec h data w config Hcfg) as Hspec.
  rewrite (new_or_stored_spec _ _ _ _ "email" Hu He) in Hspec.
  rewrite (new_or_stored_spec _ _ _ _ "name" Hu Hn) in Hspec.
  cbv zeta in Hspec. fold e n in Hspec.
  match type of Hspec with
  | _ = track ?c ?ty ?d ?w0 =>
      destruct (track_effects c ty d w0) as (Hh & Hc & _ & _ & _ & Hp);
      set (w1 := snd (track c ty d w0)) in *
  end.
  assert (Hw1 : snd (setUser h data w) = w1) by (now rewrite Hspec).
  rewrite Hw1.
  assert (Hcfg1 : current_config w1 h = Some (with_user config e n)).
  { unfold current_config. rewrite Hc, Hh. world_simpl.
    rewrite lookup_insert_eq. cbn. apply lookup_insert_eq. }
  destruct (run_calls_user h calls w1 _ Hcfg1 Hall) as (later & Hlater & Hl).
  eexists. exists later. split; [|split].
  - rewrite Hlater, Hp. world_simpl. rewrite <- app_assoc. reflexivity.
  - reflexivity.
  - constructor; [apply Hfields|].
    eapply Forall_impl; [exact Hl|]. intros tp Htp. cbn beta.
    rewrite !Htp by distinct_names. rewrite Hspread.
    split; [|apply obj_lookup_set_eq].
    rewrite obj_lookup_set_ne by distinct_names. apply obj_lookup_set_eq.
Qed.

(** ** Further properties: the identity over a sequence of calls *)

Lemma track_identity_step config ty d w :
  (forall n, generateId n <> []) ->
  let w' := snd (track config ty d w) in
  if truthy (stored_identity w) then
    generated w' = generated w /\ cookies w' = cookies w
  else
    generated w' = S (generated w) /\ truthy (stored_identity w') = true.
Proof.
  intros Hgen. cbv zeta.
  destruct (track_effects config ty d w) as (_ & _ & _ & Hck & Hg & _).
  destruct (truthy (stored_identity w)) eqn:Hid.
  - rewrite Hg, Hck, identified_present by exact Hid. split; reflexivity.
  - destruct (identified_absent w Hid) as (Hg1 & _ & Hs1).
    rewrite Hg, Hg1. split; [reflexivity|].
    rewrite (cookies_stored_identity _ _ Hck), Hs1.
    unfold js_or. cbn. specialize (Hgen (generated w)).
    destruct (generateId (generated w)); [congruence | reflexivity].
Qed.

(** One call of any function of the handle: the identity stays when
    there is one; otherwise nothing is generated or one identifier is,
    which is stored afterwards. *)
Lemma call_tracker_identity_step t h data w config :
  (forall n, generateId n <> []) ->
  current_config w h = Some config ->
  let w' := snd (call_tracker t h data w) in
  if truthy (stored_identity w) then
    generated w' = generated w /\ stored_identity w' = stored_identity w
  else
    (generated w' = generated w /\ stored_identity w' = stored_identity w)
    \/ (generated w' = S (generated w) /\ truthy (stored_identity w') = true).
Proof.
  intros Hgen Hcfg. cbv zeta.
  assert (Hsame : generated w = generated w
                  /\ stored_identity w = stored_identity w) by (split; reflexivity).
  assert (Htrack : forall c ty d w0,
             stored_identity w0 = stored_identity w ->
             generated w0 = generated w ->
             if truthy (stored_identity w) then
               generated (snd (track c ty d w0)) = generated w
               /\ stored_identity (snd (track c ty d w0)) = stored_identity w
             else
               (generated (snd (track c ty d w0)) = generated w
                /\ stored_identity (snd (track c ty d w0)) = stored_identity w)
               \/ (generated (snd (track c ty d w0)) = S (generated w)
                   /\ truthy (stored_identity (snd (track c ty d w0))) = true)).
  { intros c ty d w0 Hs Hg.
    pose proof (track_identity_step c ty d w0 Hgen) as H. cbv zeta in H.
    rewrite Hs in H. destruct (truthy (stored_identity w)).
    - destruct H as [H1 H2]. split; [congruence|].
      rewrite (cookies_stored_identity _ _ H2). exact Hs.
    - right. destruct H as [H1 H2]. split; [congruence | exact H2]. }
  destruct (event_of t data) as [[ty d]|] eqn:Hev.
  - rewrite (call_event _ _ _ _ _ _ _ Hev Hcfg).
    destruct (before_event_identity t data w) as (Hs & _ & Hg & _).
    now apply Htrack.
  - destruct t; try discriminate Hev; cbn [call_tracker].
    + rewrite (setUser_spec _ _ _ _ Hcfg).
      destruct (new_or_stored _ _ (js "email")) as [email|e];
        [|cbn [snd]; destruct (truthy _); auto].
      destruct (new_or_stored _ _ (js "name")) as [name|e];
        [|cbn [snd]; destruct (truthy _); auto].
      cbv zeta. apply Htrack; reflexivity.
    + destruct (current_config_inv _ _ _ Hcfg) as (l & Hl & Hc).
      rewrite (setProperty_spec _ _ _ _ _ Hl Hc).
      destruct (get_prop data (js "property")) as [p|e];
        [|cbn [snd]; destruct (truthy _); auto].
      destruct (get_prop p (js "id")) as [id|e];
        cbn [snd]; destruct (truthy _); auto.
Qed.

(** X12.  Over any sequence of calls of functions of a handle, at most
    one identifier is generated; and when an identity is stored at the
    start, none is generated and the stored identity is the same at the
    end.  Identifiers are taken to be non-empty strings. *)
Theorem identity_over_calls h calls w config :
  (forall n, generateId n <> []) ->
  current_config w h = Some config ->
  let w' := run_calls h calls w in
  (generated w' <= S (generated w))%nat
  /\ (truthy (stored_identity w) = true ->
      generated w' = generated w /\ stored_identity w' = stored_identity w).
Proof.
  intros Hgen. revert w config.
  induction calls as [|[t data] calls IH]; intros w config Hcfg; cbv zeta.
  - cbn [run_calls]. split; [lia | auto].
  - cbn [run_calls].
    pose proof (call_tracker_identity_step t h data w config Hgen Hcfg) as Hstep.
    cbv zeta in Hstep.
    destruct (call_tracker_frame t h data w config Hcfg)
      as (_ & config' & Hcfg' & _).
    destruct (IH _ _ Hcfg') as (Hle & Hstable).
    destruct (truthy (stored_identity w)) eqn:Hid.
    + destruct Hstep as [Hg Hs].
      destruct Hstable as [Hg' Hs']; [congruence|].
      split; [lia|]. intros _. split; congruence.
    + split; [|discriminate].
      destruct Hstep as [[Hg Hs]|[Hg Ht]].
      * lia.
      * destruct (Hstable Ht) as [Hg' _]. lia.
Qed.

(** ** Further properties: the generic entry point and construction *)

(** X13.  [trackEvent] with the name of a function of [trackers] does
    what that function does, and nothing else, when the configuration
    has no credentials, or the name is not in [jetloreTrackTypes] (as
    for [setCart], [setUser] and [setProperty]), or the data is
    falsy. *)
Theorem trackEvent_named_function h type t data w config :
  current_config w h = Some config ->
  own_tracker type = Some t ->
  jetlore config = None \/ type ∉ jetloreTrackTypes \/ truthy data = false ->
  trackEvent h type data w = call_tracker t h data w.
Proof.
  intros Hcfg Hown Hskip. unfold trackEvent.
  rewrite (bind_ok _ _ _ _ _ (read_config_spec _ _ _ Hcfg)).
  rewrite Hown.
  assert (Hcond : bool_decide (is_Some (jetlore config))
                  && match jetlore config with
                     | Some _ => bool_decide (type ∈ jetloreTrackTypes)
                     | None => false
                     end && truthy data = false).
  { destruct Hskip as [Hj|[Hnot|Hdata]].
    - rewrite Hj. reflexivity.
    - rewrite (bool_decide_eq_false_2 _ Hnot).
      destruct (jetlore config), (bool_decide _); reflexivity.
    - rewrite Hdata. apply andb_false_r. }
  rewrite Hcond. reflexivity.
Qed.

(** X14.  With credentials, a type that is both in [jetloreTrackTypes]
    and a function of [trackers] ([view], [addToCart],
    [removeFromCart], [purchase]) and an object as data, [trackEvent]
    first calls the handler of the catalog client and then does what the
    function of [trackers] does: the event is tracked as well as
    forwarded. *)
Theorem trackEvent_forwards_then_tracks h type t o w config j :
  current_config w h = Some config ->
  jetlore config = Some j ->
  type ∈ jetloreTrackTypes ->
  own_tracker type = Some t ->
  trackEvent h type (VObject o) w
  = call_tracker t h (VObject o)
      (set_jl_calls (jl_calls w ++ [JL_tracker type VUndefined]) w).
Proof.
  intros Hcfg Hj Hin Hown. unfold trackEvent.
  rewrite (bind_ok _ _ _ _ _ (read_config_spec _ _ _ Hcfg)).
  rewrite Hj, Hown, (bool_decide_eq_true_2 _ Hin).
  rewrite bool_decide_eq_true_2 by eauto.
  reflexivity.
Qed.

(** X15.  [Tracker] returns a handle that was not in use, working on the
    object it was given (on the default object without an argument),
    not on a copy; the handles there were keep their configurations; and
    construction writes no configuration, stores no cookie, generates
    no identifier, builds no payload and requests nothing. *)
Theorem Tracker_new_handle arg config w :
  heap w !! default defaultTrackerConfig_ref arg = Some config ->
  let h := fresh (dom (closures w)) in
  let w' := snd (Tracker arg w) in
  fst (Tracker arg w) = Ok h
  /\ closures w !! h = None
  /\ closures w' !! h = Some (default defaultTrackerConfig_ref arg)
  /\ current_config w' h = Some config
  /\ (forall h' c, current_config w h' = Some c ->
                   current_config w' h' = Some c)
  /\ heap w' = heap w
  /\ cookies w' = cookies w
  /\ generated w' = generated w
  /\ payloads w' = payloads w
  /\ beacons w' = beacons w
  /\ document_body w' = document_body w.
Proof.
  intros Hc. cbv zeta. rewrite (Tracker_spec _ _ _ Hc). cbv zeta.
  cbn [fst snd].
  assert (Hfresh : closures w !! fresh (dom (closures w)) = None).
  { apply not_elem_of_dom. apply is_fresh. }
  split; [reflexivity|]. split; [exact Hfresh|].
  split; [world_simpl; apply lookup_insert_eq|].
  split.
  { unfold current_config. world_simpl. rewrite lookup_insert_eq. cbn.
    destruct (jetlore config); exact Hc. }
  split.
  { intros h' c Hh'. unfold current_config in *. world_simpl.
    rewrite lookup_insert_ne by (intros <-; now rewrite Hfresh in Hh').
    destruct (jetlore config); exact Hh'. }
  destruct (jetlore config); repeat split.
Qed.

Lemma addToCart_cart_cookie h data w config :
  current_config w h = Some config ->
  cookies (snd (addToCart h data w)) !! cookie_cart
  = Some (JSON_stringify data, sevenDays).
Proof.
  intros Hcfg.
  change (addToCart h data w) with (call_tracker T_addToCart h data w).
  erewrite call_event by (reflexivity || exact Hcfg).
  match goal with
  | |- context [track ?c ?ty ?d ?w0] =>
      destruct (track_effects c ty d w0) as (_ & _ & _ & Hck & _)
  end.
  rewrite Hck. unfold identified.
  destruct (truthy _); cbn [before_event]; world_simpl.
  - apply lookup_insert_eq.
  - rewrite lookup_insert_ne by distinct_names. apply lookup_insert_eq.
Qed.

(** X16.  The cart snapshot reads back: after [addToCart] with data that
    is not [undefined], the cookie [paypal-cr-cart] holds a text that
    [JSON.parse] turns into the cart data as JSON carries it. *)
Theorem addToCart_snapshot_reads_back h data w config :
  current_config w h = Some config ->
  distinct_keys data ->
  data <> VUndefined ->
  exists text,
    cookies (snd (addToCart h data w)) !! cookie_cart
    = Some (VString text, sevenDays)
    /\ JSON_parse text = Some (json_norm data).
Proof.
  intros Hcfg Hd Hdef.
  destruct (stringify data) as [text|] eqn:Htext;
    [|now apply stringify_None in Htext].
  exists text. split.
  - rewrite (addToCart_cart_cookie _ _ _ _ Hcfg).
    unfold JSON_stringify. now rewrite Htext.
  - now apply JSON_parse_stringify.
Qed.

(** ** Further properties: requests and images *)

Lemma track_requests config ty d w0 :
  exists urls,
    (length urls <= 1)%nat
    /\ beacons (snd (track config ty d w0)) = beacons w0 ++ urls
    /\ document_body (snd (track config ty d w0))
       = (fun children => children ++ map hidden_image urls)
           <$> document_body w0.
Proof.
  rewrite track_spec.
  destruct (identified_frame w0) as (_ & _ & _ & _ & Hb & Hd).
  destruct (beacon_src _ _ _) as [url|e]; cbn [snd].
  - exists [url]. split; [cbn; lia|].
    unfold with_image. world_simpl. rewrite Hd.
    destruct (document_body w0); world_simpl; rewrite Hb; split; reflexivity.
  - exists []. split; [cbn; lia|]. world_simpl.
    rewrite Hb, Hd, app_nil_r. split; [reflexivity|].
    destruct (document_body w0); cbn; [rewrite app_nil_r|]; reflexivity.
Qed.

Lemma no_requests w :
  exists urls,
    (length urls <= 1)%nat
    /\ beacons w = beacons w ++ urls
    /\ document_body w
       = (fun children => children ++ map hidden_image urls)
           <$> document_body w.
Proof.
  exists []. split; [cbn; lia|]. rewrite app_nil_r. split; [reflexivity|].
  destruct (document_body w); cbn; [rewrite app_nil_r|]; reflexivity.
Qed.

Lemma call_tracker_requests t h data w config :
  current_config w h = Some config ->
  exists urls,
    (length urls <= 1)%nat
    /\ beacons (snd (call_tracker t h data w)) = beacons w ++ urls
    /\ document_body (snd (call_tracker t h data w))
       = (fun children => children ++ map hidden_image urls)
           <$> document_body w.
Proof.
  intros Hcfg.
  destruct (event_of t data) as [[ty d]|] eqn:Hev.
  - rewrite (call_event _ _ _ _ _ _ _ Hev Hcfg).
    destruct (track_requests config ty d (before_event t data w))
      as (urls & Hlen & Hb & Hd).
    exists urls. split; [exact Hlen|].
    rewrite Hb, Hd. destruct t; split; reflexivity.
  - destruct t; try discriminate Hev; cbn [call_tracker].
    + rewrite (setUser_spec _ _ _ _ Hcfg).
      destruct (new_or_stored _ _ (js "email")) as [email|e];
        [|apply no_requests].
      destruct (new_or_stored _ _ (js "name")) as [name|e];
        [|apply no_requests].
      cbv zeta.
      match goal with
      | |- context [track ?c ?ty ?d ?w0] =>
          destruct (track_requests c ty d w0) as (urls & Hlen & Hb & Hd)
      end.
      exists urls. split; [exact Hlen|]. rewrite Hb, Hd. split; reflexivity.
    + destruct (current_config_inv _ _ _ Hcfg) as (l & Hl & Hc).
      rewrite (setProperty_spec _ _ _ _ _ Hl Hc).
      destruct (get_prop data (js "property")) as [p|e];
        [|apply no_requests].
      destruct (get_prop p (js "id")) as [id|e]; [|apply no_requests].
      cbn [snd]. exact (no_requests w).
Qed.

(** X17.  Over any sequence of calls of functions of a handle, each call
    requests at most one URL; the images appended to the body of the
    document are images for exactly the URLs requested, in the order of
    the requests, each with [display] set to [none]; and without a body
    nothing is appended. *)
Theorem images_match_requests h calls w config :
  current_config w h = Some config ->
  let w' := run_calls h calls w in
  exists urls,
    (length urls <= length calls)%nat
    /\ beacons w' = beacons w ++ urls
    /\ document_body w'
       = (fun children => children ++ map hidden_image urls)
           <$> document_body w.
Proof.
  revert w config.
  induction calls as [|[t data] calls IH]; intros w config Hcfg; cbv zeta.
  - cbn [run_calls length].
    destruct (no_requests w) as (urls & Hlen & Hb & Hd).
    exists []. split; [cbn [length]; lia|].
    rewrite app_nil_r. split; [reflexivity|].
    destruct (document_body w); cbn; [rewrite app_nil_r|]; reflexivity.
  - cbn [run_calls length].
    destruct (call_tracker_requests t h data w config Hcfg)
      as (urls1 & Hlen1 & Hb1 & Hd1).
    destruct (call_tracker_frame t h data w config Hcfg)
      as (_ & config' & Hcfg' & _).
    destruct (IH _ _ Hcfg') as (urls2 & Hlen2 & Hb2 & Hd2).
    exists (urls1 ++ urls2). split; [rewrite length_app; lia|].
    rewrite Hb2, Hb1, Hd2, Hd1, app_assoc. split; [reflexivity|].
    destruct (document_body w); cbn; [|reflexivity].
    now rewrite map_app, app_assoc.
Qed.

Lemma serialized_stringify v t : stringify v = Some t -> serialized v = t.
Proof. intros H. unfold serialized, JSON_stringify. now rewrite H. Qed.

(** X18.  The data parameter determines the payload: two payload
    objects that [encodeData] turns into the same text are the same as
    far as JSON carries them. *)
Theorem encodeData_injective o1 o2 enc :
  distinct_keys (VObject o1) ->
  distinct_keys (VObject o2) ->
  encodeData (VObject o1) = Ok enc ->
  encodeData (VObject o2) = Ok enc ->
  json_norm (VObject o1) = json_norm (VObject o2).
Proof.
  intros Hd1 Hd2 He1 He2.
  assert (Hser : forall o, encodeData (VObject o) = Ok enc ->
                           decodeURIComponent enc ≫= atob
                           = Some (serialized (VObject o))).
  { intros o He.
    destruct (forallb is_byte (serialized (VObject o))) eqn:Hbytes.
    - destruct (encodeData_latin1 _ Hbytes) as (enc' & Hok & _ & Hdec).
      rewrite He in Hok. injection Hok as <-.
      rewrite Hdec. cbn [mbind option_bind]. apply atob_btoa.
      unfold btoa. now rewrite Hbytes.
    - rewrite (encodeData_not_latin1 _ Hbytes) in He. discriminate He. }
  destruct (stringify (VObject o1)) as [t1|] eqn:Ht1; [|discriminate Ht1].
  destruct (stringify (VObject o2)) as [t2|] eqn:Ht2; [|discriminate Ht2].
  pose proof (Hser o1 He1) as H1. pose proof (Hser o2 He2) as H2.
  rewrite (serialized_stringify _ _ Ht1) in H1.
  rewrite (serialized_stringify _ _ Ht2) in H2.
  assert (t1 = t2) by congruence. subst t2.
  pose proof (JSON_parse_stringify _ _ Ht1 Hd1) as P1.
  pose proof (JSON_parse_stringify _ _ Ht2 Hd2) as P2.
  congruence.
Qed.

(** X19.  Events whose type is in neither list and is not the name of a
    member of [Object.prototype] are ignored: after any number of them
    the world is as it was, with or without credentials and whatever
    the data. *)
Theorem trackEvent_ignores_unknown_types h events w config :
  current_config w h = Some config ->
  Forall (fun ev => (fst ev ∉ jetloreTrackTypes)
                    /\ own_tracker (fst ev) = None
                    /\ object_prototype (fst ev) = None) events ->
  run_events h events w = w.
Proof.
  intros Hcfg Hall.
  induction Hall as [|[type data] events (Hnot & Hown & Hproto) _ IH].
  - reflexivity.
  - cbn [run_events fst] in *.
    rewrite (trackEvent_unknown_type _ _ _ _ _ Hcfg Hnot Hown Hproto).
    exact IH.
Qed.

(** ** Dispatch: the payload that is built and the request that is made *)

(** [track]: the payload built, and the request made of it.  With a URL
    override the request is made; without one it is made when the JSON
    text of the payload has no code unit above 255, and otherwise [btoa]
    raises and nothing is requested. *)
Lemma track_dispatch config ty d w :
  let r := fst (track config ty d w) in
  let w' := snd (track config ty d w) in
  let data := payload_data config ty d (stored_identity w') in
  payloads w' = payloads w ++ [(ty, data)]
  /\ match paramsToBeaconUrl config with
     | Some f =>
         let url :=
           f (VObject [(js "trackingType", VString (TrackingType_name ty));
                       (js "data", data)]) in
         r = Ok tt
         /\ beacons w' = beacons w ++ [url]
         /\ document_body w'
            = (fun children => children ++ [hidden_image url])
                <$> document_body w
     | None =>
         if forallb is_byte (serialized data) then
           exists enc,
             encodeData data = Ok enc
             /\ r = Ok tt
             /\ beacons w' = beacons w ++ [beacon_url_prefix ty ++ enc]
             /\ document_body w'
                = (fun children =>
                     children ++ [hidden_image (beacon_url_prefix ty ++ enc)])
                    <$> document_body w
         else
           r = Throw InvalidCharacterError
           /\ beacons w' = beacons w
           /\ document_body w' = document_body w
     end.
Proof.
  cbv zeta.
  destruct (track_effects config ty d w) as (_ & _ & _ & Hck & _ & Hp).
  rewrite (cookies_stored_identity _ _ Hck).
  split; [exact Hp|].
  set (data := payload_data config ty d (stored_identity (identified w))).
  rewrite track_spec. fold data. unfold beacon_src.
  destruct (identified_frame w) as (_ & _ & _ & _ & Hb & Hd).
  assert (Himg : forall url,
             let w2 := set_payloads (payloads (identified w) ++ [(ty, data)])
                         (identified w) in
             beacons (with_image url (set_beacons (beacons w2 ++ [url]) w2))
             = beacons w ++ [url]
             /\ document_body
                  (with_image url (set_beacons (beacons w2 ++ [url]) w2))
                = (fun children => children ++ [hidden_image url])
                    <$> document_body w).
  { intros url. cbv zeta. unfold with_image, hidden_image. world_simpl.
    rewrite Hd. destruct (document_body w); world_simpl; rewrite Hb;
      split; reflexivity. }
  destruct (paramsToBeaconUrl config) as [f|].
  - cbn [fst snd]. split; [reflexivity|]. apply Himg.
  - destruct (forallb is_byte (serialized data)) eqn:Hbytes.
    + destruct (encodeData_latin1 _ Hbytes) as (enc & Hok & _).
      exists enc. rewrite Hok. cbn [fst snd].
      split; [reflexivity|]. split; [reflexivity|]. apply Himg.
    + rewrite (encodeData_not_latin1 _ Hbytes). cbn [fst snd]. world_simpl.
      repeat split; assumption.
Qed.

(** C8 (what the code does).  [addToCart] stores [JSON.stringify(data)]
    under [paypal-cr-cart] with a lifetime of seven days, whatever was
    stored there before, and then builds one [cartEvent] payload whose
    [cartEventType] is [addToCart].  The event is dispatched (one URL
    requested, one hidden image appended when there is a body) when the
    configuration has a URL override or the JSON text of the payload has
    no code unit above 255; otherwise [btoa] raises
    [InvalidCharacterError] and the event is not dispatched: no URL is
    requested and no image appended, with the snapshot already
    stored. *)
Theorem addToCart_dispatch h data w config :
  current_config w h = Some config ->
  let r := fst (addToCart h data w) in
  let w' := snd (addToCart h data w) in
  cookies w' !! cookie_cart = Some (JSON_stringify data, sevenDays)
  /\ sevenDays = (7 * 24 * 60 * 60 * 1000)%Z
  /\ exists payload,
      payloads w' = payloads w ++ [(CartEvent, payload)]
      /\ payload_field "cartEventType" payload = Some (VString (js "addToCart"))
      /\ payload_field "trackingType" payload = Some (VString (js "cartEvent"))
      /\ match paramsToBeaconUrl config with
         | Some f =>
             let url :=
               f (VObject [(js "trackingType", VString (js "cartEvent"));
                           (js "data", payload)]) in
             r = Ok tt
             /\ beacons w' = beacons w ++ [url]
             /\ document_body w'
                = (fun children => children ++ [hidden_image url])
                    <$> document_body w
         | None =>
             if forallb is_byte (serialized payload) then
               exists enc,
                 encodeData payload = Ok enc
                 /\ r = Ok tt
                 /\ beacons w'
                    = beacons w ++ [beacon_url_prefix CartEvent ++ enc]
                 /\ document_body w'
                    = (fun children =>
                         children
                           ++ [hidden_image
                                 (beacon_url_prefix CartEvent ++ enc)])
                        <$> document_body w
             else
               r = Throw InvalidCharacterError
               /\ beacons w' = beacons w
               /\ document_body w' = document_body w
         end.
Proof.
  intros Hcfg. cbv zeta.
  split; [exact (addToCart_cart_cookie h data w config Hcfg)|].
  split; [reflexivity|].
  change (addToCart h data w) with (call_tracker T_addToCart h data w).
  erewrite call_event by (reflexivity || exact Hcfg).
  match goal with
  | |- context [track ?c ?ty ?d ?w0] =>
      pose proof (track_dispatch c ty d w0) as Hdisp
  end.
  cbv zeta in Hdisp. cbn [before_event] in Hdisp. world_simpl.
  destruct Hdisp as (Hp & Hout).
  eexists. split; [exact Hp|].
  split; [apply (cart_event_discriminator config AddToCart)|].
  split; [apply payload_data_trackingType|].
  exact Hout.
Qed.

(** C4 (what the code does).  [setUser] with a [data.user] to read from:
    in the configuration that is current afterwards, [user.email] is the
    new email when it is given (truthy) and the stored one otherwise,
    and likewise [user.name]; the property, the URL override and the
    credentials are carried over.  Exactly one payload is built, of type
    [setUser], and its [oldUserId] is the identity that was stored when
    [setUser] was called.  The event is dispatched (one URL requested,
    one hidden image appended when there is a body) when the
    configuration has a URL override or the JSON text of the payload has
    no code unit above 255; otherwise [btoa] raises
    [InvalidCharacterError] and the event is not dispatched: no URL is
    requested and no image appended, with the configuration already
    replaced. *)
Theorem setUser_dispatch h data u email name w config :
  current_config w h = Some config ->
  get_prop data (js "user") = Ok u ->
  get_prop u (js "email") = Ok email ->
  get_prop u (js "name") = Ok name ->
  let r := fst (setUser h data w) in
  let w' := snd (setUser h data w) in
  exists config' payload,
    current_config w' h = Some config'
    /\ payload_field "email" (user config')
       = Some (if truthy email then email
               else stored_user_field config "email")
    /\ payload_field "name" (user config')
       = Some (if truthy name then name else stored_user_field config "name")
    /\ property config' = property config
    /\ paramsToBeaconUrl config' = paramsToBeaconUrl config
    /\ jetlore config' = jetlore config
    /\ payloads w' = payloads w ++ [(SetUser, payload)]
    /\ payload_field "oldUserId" payload = Some (stored_identity w)
    /\ match paramsToBeaconUrl config with
       | Some f =>
           let url :=
             f (VObject [(js "trackingType", VString (js "setUser"));
                         (js "data", payload)]) in
           r = Ok tt
           /\ beacons w' = beacons w ++ [url]
           /\ document_body w'
              = (fun children => children ++ [hidden_image url])
                  <$> document_body w
       | None =>
           if forallb is_byte (serialized payload) then
             exists enc,
               encodeData payload = Ok enc
               /\ r = Ok tt
               /\ beacons w' = beacons w ++ [beacon_url_prefix SetUser ++ enc]
               /\ document_body w'
                  = (fun children =>
                       children
                         ++ [hidden_image (beacon_url_prefix SetUser ++ enc)])
                      <$> document_body w
           else
             r = Throw InvalidCharacterError
             /\ beacons w' = beacons w
             /\ document_body w' = document_body w
       end.
Proof.
  intros Hcfg Hu He Hn. cbv zeta.
  rewrite (setUser_spec _ _ _ _ Hcfg).
  rewrite (new_or_stored_spec _ _ _ _ "email" Hu He).
  rewrite (new_or_stored_spec _ _ _ _ "name" Hu Hn).
  cbv zeta.
  set (e := if truthy email then _ else _).
  set (n := if truthy name then _ else _).
  match goal with
  | |- context [track ?c ?ty ?d ?w0] =>
      destruct (track_effects c ty d w0) as (Hh & Hc & _);
      pose proof (track_dispatch c ty d w0) as Hdisp
  end.
  cbv zeta in Hdisp. destruct Hdisp as (Hp & Hout).
  exists (with_user config e n). eexists.
  split.
  { unfold current_config. rewrite Hc, Hh. world_simpl.
    rewrite lookup_insert_eq. cbn. apply lookup_insert_eq. }
  split.
  { cbn [with_user user payload_field].
    rewrite obj_lookup_set_ne by distinct_names. apply obj_lookup_set_eq. }
  split; [cbn [with_user user payload_field]; apply obj_lookup_set_eq|].
  split; [reflexivity|]. split; [reflexivity|]. split; [reflexivity|].
  split; [exact Hp|]. split.
  - unfold payload_field.
    match goal with
    | |- context [payload_data ?c ?ty ?d ?id] =>
        pose proof (payload_data_copied c ty d id (js "oldUserId")) as H;
        destruct (payload_data c ty d id) eqn:E;
        try (unfold payload_data in E; discriminate E)
    end.
    rewrite H.
    + unfold spread. cbn. now rewrite decide_True.
    + intros Hin. vm_compute in Hin.
      repeat (apply elem_of_cons in Hin as [Hin|Hin]; [discriminate Hin|]).
      inversion Hin.
  - exact Hout.
Qed.

End Component.

(** ** The properties at the sample inputs *)

Ltac by_computation := apply (bool_decide_unpack _); vm_compute; exact I.

(** C5 at the sample configuration with an override. *)
Lemma track_override_verbatim_sample :
  let track := track sample_generateId sample_clientID sample_merchantID in
  fst (track sample_config_override View sample_view sample_world) = Ok tt
  /\ beacons (snd (track sample_config_override View sample_view sample_world))
     = [js "/beacon"].
Proof.
  destruct (track_override_verbatim sample_generateId sample_clientID
              sample_merchantID sample_config_override View sample_view
              sample_override sample_world eq_refl) as (H1 & _ & H2 & _).
  split; [exact H1 | exact H2].
Defined.

(** C2 at the first [view] of a page without identity: one identifier
    is generated, stored for thirty days and used as [user.id]. *)
Lemma identity_generated_once_sample :
  let w' := snd (call_tracker sample_generateId sample_clientID
                   sample_merchantID T_view 0 sample_view sample_world) in
  generated w' = 1%nat
  /\ cookies w' !! cookie_user_id
     = Some (VString (sample_generateId 0), 2592000000%Z)
  /\ exists payload,
      payloads w' = [(View, payload)]
      /\ payload_field "user" payload ≫= payload_field "id"
         = Some (VString (sample_generateId 0)).
Proof.
  destruct (identity_generated_once sample_generateId sample_clientID
              sample_merchantID T_view sample_view View sample_view 0
              sample_world defaultTrackerConfig eq_refl eq_refl)
    as (payload & Hp & Hid & _).
  - intros n. discriminate.
  - change (truthy (stored_identity sample_world)) with false in Hid.
    cbv zeta in Hid. destruct Hid as (Hg & Hc & Hu & _).
    split; [exact Hg|]. split; [exact Hc|].
    exists payload. split; [exact Hp | exact Hu].
Defined.

(** C7 at the sample property, followed by a [view] and an
    [addToCart]. *)
Lemma setProperty_in_place_sample :
  let w' := snd (setProperty 0 sample_property sample_world) in
  fst (setProperty 0 sample_property sample_world) = Ok tt
  /\ beacons w' = []
  /\ (property <$> current_config w' 0)
     = Some (VObject [(js "id", VString (js "P1"))])
  /\ exists new,
      payloads (run_calls sample_generateId sample_clientID sample_merchantID
                  0 [(T_view, sample_view); (T_addToCart, sample_cart)] w')
      = new
      /\ Forall (fun tp => payload_field "property" (snd tp)
                           = Some (VObject [(js "id", VString (js "P1"))]))
           new.
Proof.
  destruct (setProperty_in_place sample_generateId sample_clientID
              sample_merchantID 0 sample_property
              (VObject [(js "id", VString (js "P1"))]) (VString (js "P1"))
              sample_world 0%nat defaultTrackerConfig
              eq_refl eq_refl eq_refl eq_refl)
    as (Hrun & Hcl & Hheap & _ & _ & _ & _ & Hb & _ & _ & _ & _ & Hlater).
  rewrite Hrun. cbn [fst snd].
  split; [reflexivity|]. split; [exact Hb|]. split.
  - unfold current_config. rewrite Hcl. cbn [mbind option_bind].
    rewrite Hheap. reflexivity.
  - destruct (Hlater [(T_view, sample_view); (T_addToCart, sample_cart)])
      as (new & Hnew & Hall).
    + repeat constructor; discriminate.
    + exists new. split; [exact Hnew | exact Hall].
Defined.

(** C6 at a handle without credentials, for a type of the catalog list,
    a tracker function and an unknown type. *)
Lemma no_credentials_no_forwarding_sample :
  jl_calls (run_events sample_generateId sample_clientID sample_merchantID 0
              [(js "search", VObject [(js "text", VString (js "shoes"))]);
               (js "view", sample_view);
               (js "unknown", VNull)] sample_world) = [].
Proof.
  exact (no_credentials_no_forwarding sample_generateId sample_clientID
           sample_merchantID 0 _ sample_world defaultTrackerConfig
           eq_refl eq_refl).
Defined.

(** C3 at [track("view", { name: "home", refinements: [] })] on a handle
    with credentials: the handler is called with [undefined], not with
    [{ name: "home", refinements: [] }]. *)
Lemma jetlore_payload_is_undefined_sample :
  jl_calls (snd (trackEvent sample_generateId sample_clientID
                   sample_merchantID 1 (js "view")
                   (VObject sample_catalog_view) sample_world))
  = [JL_tracker (js "view") VUndefined]
  /\ getJetlorePayload (VString (js "view")) (VObject sample_catalog_view)
     = Ok (VObject sample_catalog_view).
Proof.
  split.
  - apply (jetlore_payload_is_undefined sample_generateId sample_clientID
             sample_merchantID 1 (js "view") sample_catalog_view sample_world
             (sample_config_jetlore sample_jetlore) sample_jetlore
             eq_refl eq_refl).
    by_computation.
  - reflexivity.
Defined.

(** C9 at [track("__proto__", {})] on the default handle. *)
Lemma trackEvent_proto_throws_sample :
  trackEvent sample_generateId sample_clientID sample_merchantID 0
    (js "__proto__") (VObject []) sample_world
  = (Throw TypeError, sample_world).
Proof.
  destruct (trackEvent_proto_throws sample_generateId sample_clientID
              sample_merchantID 0 (VObject []) sample_world
              defaultTrackerConfig eq_refl) as (_ & _ & Hthrow).
  destruct (trackEvent _ _ _ _ _ _ _) as [r w'] eqn:E.
  cbn [fst] in Hthrow. subst r. f_equal.
  apply (f_equal snd) in E. cbn [snd] in E. rewrite <- E. reflexivity.
Defined.

(** C10 (amended) at credentials with a non-empty [div] and no [lang]. *)
Lemma jetlore_init_copies_falsy_only_sample :
  jl_calls (snd (Tracker (Some 1%nat) sample_world))
  = [JL_tracking (VObject [(js "cid", VString (js "token"));
                           (js "user_id", VString (js "u1"));
                           (js "feed_id", VString (js "feed"));
                           (js "lang", VUndefined)])].
Proof.
  destruct (jetlore_init_copies_falsy_only (Some 1%nat)
              (sample_config_jetlore sample_jetlore) sample_jetlore
              sample_world eq_refl eq_refl) as (Hcall & _).
  exact Hcall.
Defined.

(** C10, the property as the specification states it fails: a [div]
    that the caller supplied as the empty string is passed on to
    [JL.tracking]. *)
Lemma supplied_empty_div_is_forwarded :
  div sample_jetlore_empty_div = Some []
  /\ jl_calls (snd (Tracker (Some 3%nat) sample_world))
     = [JL_tracking (VObject [(js "cid", VString (js "token"));
                              (js "user_id", VString (js "u1"));
                              (js "feed_id", VString (js "feed"));
                              (js "div", VString []);
                              (js "lang", VUndefined)])]
  /\ ~ (payload_field "div" (jetlore_trackingConfig sample_jetlore_empty_div)
        = None).
Proof. split; [reflexivity|]. split; [reflexivity | discriminate]. Qed.

(** C1 (amended) at the first [view] of a page on the default
    configuration. *)
Lemma beacon_url_round_trip_sample :
  let track := track sample_generateId sample_clientID sample_merchantID in
  let data :=
    payload_data sample_clientID sample_merchantID defaultTrackerConfig View
      sample_view (VString (sample_generateId 0)) in
  exists enc,
    beacons (snd (track defaultTrackerConfig View sample_view sample_world))
    = [js "https://www.paypal.com/targeting/track/view?data=" ++ enc]
    /\ decode_data enc = Some (json_norm data).
Proof.
  destruct (beacon_url_round_trip sample_generateId sample_clientID
              sample_merchantID defaultTrackerConfig View sample_view
              sample_world)
    as (text & b64 & enc & _ & _ & _ & _ & _ & Hurl & Hdec).
  - reflexivity.
  - cbn [distinct_keys sample_view fold_right snd]. repeat split.
    by_computation.
  - cbn [distinct_keys defaultTrackerConfig user fold_right snd].
    repeat split. by_computation.
  - exact I.
  - exact I.
  - vm_compute. reflexivity.
  - exists enc. split; [exact Hurl | exact Hdec].
Defined.

(** C1, the property as the specification states it fails.  On the
    default configuration the merged payload of a [view] has properties
    that are [undefined] ([property], and the [email] and [name] of
    [user]), which the decoded data has not: what is read back from the
    URL is not the merged payload.  And with a euro sign in the page
    name, [btoa] raises [InvalidCharacterError] and no URL is requested
    at all. *)
Lemma beacon_url_round_trip_fails_as_stated :
  let track := track sample_generateId sample_clientID sample_merchantID in
  let data :=
    payload_data sample_clientID sample_merchantID defaultTrackerConfig View
      sample_view (VString (sample_generateId 0)) in
  (payloads (snd (track defaultTrackerConfig View sample_view sample_world))
   = [(View, data)]
   /\ ~ exists enc,
       beacons (snd (track defaultTrackerConfig View sample_view sample_world))
       = [beacon_url_prefix View ++ enc]
       /\ decode_data enc = Some data)
  /\ (fst (track defaultTrackerConfig View sample_view_euro sample_world)
      = Throw InvalidCharacterError
      /\ ~ exists url,
          beacons (snd (track defaultTrackerConfig View sample_view_euro
                          sample_world))
          = beacons sample_world ++ [url]).
Proof.
  cbv zeta. split; [split|split].
  - reflexivity.
  - intros (enc & Hurl & Hdec).
    vm_compute in Hurl. injection Hurl as <-.
    vm_compute in Hdec. discriminate Hdec.
  - reflexivity.
  - intros (url & Hurl). vm_compute in Hurl. discriminate Hurl.
Qed.

(** The default configuration is one object: two handles made without an
    argument share it, and [setProperty] on one shows in the payloads of
    the other. *)
Example default_configuration_is_shared :
  let page :=
    (let* h1 := Tracker None in
     let* h2 := Tracker None in
     setProperty h1 sample_property ;;;
     view sample_generateId sample_clientID sample_merchantID h2 sample_view)
      %tracker in
  exists payload,
    payloads (snd (page (initial_world (Some [])))) = [(View, payload)]
    /\ payload_field "property" payload
       = Some (VObject [(js "id", VString (js "P1"))]).
Proof. eexists. split; reflexivity. Qed.

(** The sample world is the world of a page that made its four handles
    on the sample configurations. *)
Example sample_world_handles :
  current_config sample_world 0 = Some defaultTrackerConfig
  /\ current_config sample_world 1
     = Some (sample_config_jetlore sample_jetlore)
  /\ current_config sample_world 2 = Some sample_config_override
  /\ current_config sample_world 3
     = Some (sample_config_jetlore sample_jetlore_empty_div).
Proof. repeat split. Qed.

(** X3 at a [view] whose data tries to set [trackingType] and
    [clientId]. *)
Lemma track_payload_fields_sample :
  let o := [(js "page", VString (js "/home"));
            (js "trackingType", VString (js "purchase"));
            (js "clientId", VString (js "someone-else"))] in
  let w' := snd (track sample_generateId sample_clientID sample_merchantID
                   defaultTrackerConfig View (VObject o) sample_world) in
  exists payload,
    payloads w' = [(View, payload)]
    /\ payload_field "trackingType" payload = Some (VString (js "view"))
    /\ payload_field "clientId" payload = Some (VString sample_clientID)
    /\ payload_field "page" payload = Some (VString (js "/home")).
Proof.
  cbv zeta.
  destruct (track_payload_fields sample_generateId sample_clientID
              sample_merchantID defaultTrackerConfig View
              [(js "page", VString (js "/home"));
               (js "trackingType", VString (js "purchase"));
               (js "clientId", VString (js "someone-else"))] sample_world)
    as (payload & Hp & Ht & Hc & _ & _ & _ & Hcopy).
  - by_computation.
  - exists payload. split; [exact Hp|]. split; [exact Ht|].
    split; [exact Hc|].
    specialize (Hcopy (js "page")).
    destruct payload; try discriminate Ht.
    cbn [object_props] in Hcopy. unfold payload_field. rewrite Hcopy.
    + reflexivity.
    + intros Hin. vm_compute in Hin.
      repeat (apply elem_of_cons in Hin as [Hin|Hin]; [discriminate Hin|]).
      inversion Hin.
Defined.

(** X4 at [removeFromCart] with data that has a [cartEventType]. *)
Lemma cart_event_payload_sample :
  let o := [(js "cartEventType", VString (js "addToCart"));
            (js "items", VArray [])] in
  let w' := snd (call_tracker sample_generateId sample_clientID
                   sample_merchantID T_removeFromCart 0 (VObject o)
                   sample_world) in
  exists payload,
    payloads w' = [(CartEvent, payload)]
    /\ payload_field "cartEventType" payload
       = Some (VString (js "removeFromCart"))
    /\ cookies w' !! cookie_cart = None.
Proof.
  cbv zeta.
  destruct (cart_event_payload sample_generateId sample_clientID
              sample_merchantID RemoveFromCart 0
              [(js "cartEventType", VString (js "addToCart"));
               (js "items", VArray [])] sample_world defaultTrackerConfig
              eq_refl)
    as (payload & Hp & Hc & _ & _ & Hcookie).
  - by_computation.
  - exists payload. split; [exact Hp|]. split; [exact Hc|].
    exact (Hcookie ltac:(discriminate)).
Defined.

(** X8 at data without [user]. *)
Lemma setUser_without_user_sample :
  setUser sample_generateId sample_clientID sample_merchantID 0
    (VObject [(js "email", VString (js "a@b.c"))]) sample_world
  = (Throw TypeError, sample_world).
Proof.
  apply (setUser_without_user sample_generateId sample_clientID
           sample_merchantID 0 _ sample_world defaultTrackerConfig eq_refl).
  intros u [= <-]. now left.
Defined.

(** X9 at data without [property]. *)
Lemma setProperty_without_property_sample :
  setProperty 0 (VObject [(js "id", VString (js "P1"))]) sample_world
  = (Throw TypeError, sample_world).
Proof.
  apply (setProperty_without_property 0 _ sample_world 0%nat
           defaultTrackerConfig eq_refl eq_refl).
  intros p [= <-]. now left.
Defined.

(** X10 at two handles on the default configuration: [setUser] on the
    one leaves the other on the default configuration. *)
Lemma other_handles_unaffected_sample :
  let w := set_closures (<[4%nat := 0%nat]> (closures sample_world))
             sample_world in
  current_config
    (snd (setUser sample_generateId sample_clientID sample_merchantID 0
            sample_user_name_only w)) 4
  = Some defaultTrackerConfig.
Proof.
  cbv zeta.
  apply (other_handles_unaffected sample_generateId sample_clientID
           sample_merchantID T_setUser 0 4 sample_user_name_only _
           defaultTrackerConfig defaultTrackerConfig);
    [discriminate | discriminate | reflexivity | reflexivity].
Defined.

(** X11 at a [setUser] with a name only, on a configuration with a
    stored email, followed by a [view] and a [setProperty]. *)
Lemma setUser_then_payloads_sample :
  exists first later,
    payloads (run_calls sample_generateId sample_clientID sample_merchantID 2
                [(T_setUser, sample_user_name_only); (T_view, sample_view);
                 (T_setProperty, sample_property)] sample_world)
    = first :: later
    /\ Forall (fun tp =>
                 user_field (js "email") (snd tp) = Some (VString (js "a@b.c"))
                 /\ user_field (js "name") (snd tp) = Some (VString (js "Bob")))
         (first :: later).
Proof.
  destruct (setUser_then_payloads sample_generateId sample_clientID
              sample_merchantID 2 sample_user_name_only
              (VObject [(js "name", VString (js "Bob"))])
              VUndefined (VString (js "Bob"))
              [(T_view, sample_view); (T_setProperty, sample_property)]
              sample_world sample_config_override
              eq_refl eq_refl eq_refl eq_refl)
    as (first & later & Hp & _ & Hall).
  - repeat constructor; discriminate.
  - exists first, later. split; [exact Hp | exact Hall].
Defined.

(** X12 at a page that views, adds to the cart, sets the user and views
    again: one identifier. *)
Lemma identity_over_calls_sample :
  (generated
     (run_calls sample_generateId sample_clientID sample_merchantID 0
        [(T_view, sample_view); (T_addToCart, sample_cart);
         (T_setUser, sample_user_name_only); (T_view, sample_view)]
        sample_world) <= 1)%nat.
Proof.
  destruct (identity_over_calls sample_generateId sample_clientID
              sample_merchantID 0
              [(T_view, sample_view); (T_addToCart, sample_cart);
               (T_setUser, sample_user_name_only); (T_view, sample_view)]
              sample_world defaultTrackerConfig) as (Hle & _).
  - intros n. discriminate.
  - reflexivity.
  - exact Hle.
Defined.

(** X13 at [track("setCart", ...)] on a handle with credentials. *)
Lemma trackEvent_named_function_sample :
  trackEvent sample_generateId sample_clientID sample_merchantID 1
    (js "setCart") sample_cart sample_world
  = setCart sample_generateId sample_clientID sample_merchantID 1
      sample_cart sample_world.
Proof.
  apply (trackEvent_named_function sample_generateId sample_clientID
           sample_merchantID 1 (js "setCart") T_setCart sample_cart
           sample_world (sample_config_jetlore sample_jetlore)
           eq_refl eq_refl).
  right. left. by_computation.
Defined.

(** X14 at [track("purchase", { cartId: "c1", ... })] on a handle with
    credentials. *)
Lemma trackEvent_forwards_then_tracks_sample :
  let w' := snd (trackEvent sample_generateId sample_clientID
                   sample_merchantID 1 (js "purchase") sample_cart
                   sample_world) in
  jl_calls w' = [JL_tracker (js "purchase") VUndefined]
  /\ length (payloads w') = 1%nat.
Proof.
  cbv zeta. unfold sample_cart.
  rewrite (trackEvent_forwards_then_tracks sample_generateId sample_clientID
             sample_merchantID 1 (js "purchase") T_purchase _ sample_world
             (sample_config_jetlore sample_jetlore) sample_jetlore
             eq_refl eq_refl ltac:(by_computation) eq_refl).
  split; reflexivity.
Defined.

(** X15 at a second handle on the default configuration. *)
Lemma Tracker_new_handle_sample :
  fst (Tracker None sample_world) = Ok 4%nat
  /\ current_config (snd (Tracker None sample_world)) 4
     = Some defaultTrackerConfig
  /\ beacons (snd (Tracker None sample_world)) = [].
Proof.
  destruct (Tracker_new_handle None defaultTrackerConfig sample_world eq_refl)
    as (H1 & _ & _ & H2 & _ & _ & _ & _ & _ & H3 & _).
  split; [exact H1|]. split; [exact H2 | exact H3].
Defined.

(** X16 at the sample cart. *)
Lemma addToCart_snapshot_reads_back_sample :
  exists text,
    cookies (snd (addToCart sample_generateId sample_clientID
                    sample_merchantID 0 sample_cart sample_world))
      !! cookie_cart = Some (VString text, sevenDays)
    /\ JSON_parse text = Some sample_cart.
Proof.
  destruct (addToCart_snapshot_reads_back sample_generateId sample_clientID
              sample_merchantID 0 sample_cart sample_world
              defaultTrackerConfig eq_refl) as (text & Hc & Hp).
  - cbn [distinct_keys sample_cart fold_right snd map fst].
    repeat split; by_computation.
  - discriminate.
  - exists text. split; [exact Hc | exact Hp].
Defined.


(** X17 at a page that views, sets the property and views a page whose
    name has a euro sign: one request, one image. *)
Lemma images_match_requests_sample :
  exists url,
    beacons (run_calls sample_generateId sample_clientID sample_merchantID 0
               [(T_view, sample_view); (T_setProperty, sample_property);
                (T_view, sample_view_euro)] sample_world) = [url]
    /\ document_body
         (run_calls sample_generateId sample_clientID sample_merchantID 0
            [(T_view, sample_view); (T_setProperty, sample_property);
             (T_view, sample_view_euro)] sample_world)
       = Some [hidden_image url].
Proof.
  destruct (images_match_requests sample_generateId sample_clientID
              sample_merchantID 0
              [(T_view, sample_view); (T_setProperty, sample_property);
               (T_view, sample_view_euro)] sample_world
              defaultTrackerConfig eq_refl) as (urls & _ & Hb & Hd).
  assert (Hone : length urls = 1%nat).
  { apply (f_equal (@length jstring)) in Hb. vm_compute in Hb.
    symmetry. exact Hb. }
  destruct urls as [|url [|]]; try discriminate Hone.
  exists url. split; [exact Hb | exact Hd].
Defined.

(** X18 at two objects that differ in a property that is [undefined]. *)
Lemma encodeData_injective_sample :
  json_norm (VObject [(js "page", VString (js "/")); (js "title", VUndefined)])
  = json_norm (VObject [(js "page", VString (js "/"))]).
Proof.
  eapply (encodeData_injective sample_generateId
            [(js "page", VString (js "/")); (js "title", VUndefined)]
            [(js "page", VString (js "/"))]).
  - cbn [distinct_keys fold_right snd map fst]. repeat split. by_computation.
  - cbn [distinct_keys fold_right snd map fst]. repeat split. by_computation.
  - vm_compute. reflexivity.
  - vm_compute. reflexivity.
Defined.

(** X19 at a handle with credentials and three types that nothing
    knows. *)
Lemma trackEvent_ignores_unknown_types_sample :
  run_events sample_generateId sample_clientID sample_merchantID 1
    [(js "unknown", sample_view); (js "click", VNull);
     (js "View", sample_view)] sample_world
  = sample_world.
Proof.
  apply (trackEvent_ignores_unknown_types sample_generateId sample_clientID
           sample_merchantID 1 _ sample_world
           (sample_config_jetlore sample_jetlore) eq_refl).
  repeat constructor; by_computation.
Defined.

(** C8 at the cart with a euro sign in a title, on the default handle:
    the snapshot is stored and the payload built, and nothing is
    dispatched. *)
Lemma addToCart_dispatch_sample :
  let r := fst (addToCart sample_generateId sample_clientID
                  sample_merchantID 0 sample_cart_euro sample_world) in
  let w' := snd (addToCart sample_generateId sample_clientID
                   sample_merchantID 0 sample_cart_euro sample_world) in
  r = Throw InvalidCharacterError
  /\ beacons w' = []
  /\ document_body w' = Some []
  /\ cookies w' !! cookie_cart
     = Some (JSON_stringify sample_cart_euro, 604800000%Z)
  /\ exists payload,
      payloads w' = [(CartEvent, payload)]
      /\ payload_field "cartEventType" payload
         = Some (VString (js "addToCart")).
Proof.
  cbv zeta.
  destruct (addToCart_dispatch sample_generateId sample_clientID
              sample_merchantID 0 sample_cart_euro sample_world
              defaultTrackerConfig eq_refl)
    as (Hc & _ & payload & Hp & Hd & _ & Hout).
  cbn [paramsToBeaconUrl defaultTrackerConfig] in Hout.
  assert (Hbytes : forallb is_byte (serialized payload) = false).
  { change (payloads sample_world) with (@nil (TrackingType * value)) in Hp.
    cbn [app] in Hp. vm_compute in Hp. injection Hp as <-.
    vm_compute. reflexivity. }
  rewrite Hbytes in Hout. destruct Hout as (Hr & Hb & Hbody).
  split; [exact Hr|]. split; [exact Hb|]. split; [exact Hbody|].
  split; [exact Hc|]. exists payload. split; [exact Hp | exact Hd].
Defined.

(** C4 at a [setUser] whose name ends in a euro sign, on the default
    handle: the configuration is replaced, the payload built, and
    nothing is dispatched. *)
Lemma setUser_dispatch_sample :
  let r := fst (setUser sample_generateId sample_clientID
                  sample_merchantID 0 sample_user_euro sample_world) in
  let w' := snd (setUser sample_generateId sample_clientID
                   sample_merchantID 0 sample_user_euro sample_world) in
  r = Throw InvalidCharacterError
  /\ beacons w' = []
  /\ document_body w' = Some []
  /\ exists config' payload,
      current_config w' 0 = Some config'
      /\ payload_field "email" (user config')
         = Some (VString (js "bob@example.com"))
      /\ payload_field "name" (user config')
         = Some (VString (js "Bob" ++ [8364]))
      /\ payloads w' = [(SetUser, payload)]
      /\ payload_field "oldUserId" payload = Some VNull.
Proof.
  cbv zeta.
  destruct (setUser_dispatch sample_generateId sample_clientID
              sample_merchantID 0 sample_user_euro
              (VObject [(js "email", VString (js "bob@example.com"));
                        (js "name", VString (js "Bob" ++ [8364]))])
              (VString (js "bob@example.com"))
              (VString (js "Bob" ++ [8364])) sample_world
              defaultTrackerConfig eq_refl eq_refl eq_refl eq_refl)
    as (config' & payload & H1 & H2 & H3 & _ & _ & _ & Hp & Hold & Hout).
  cbn [paramsToBeaconUrl defaultTrackerConfig] in Hout.
  assert (Hbytes : forallb is_byte (serialized payload) = false).
  { change (payloads sample_world) with (@nil (TrackingType * value)) in Hp.
    cbn [app] in Hp. vm_compute in Hp. injection Hp as <-.
    vm_compute. reflexivity. }
  rewrite Hbytes in Hout. destruct Hout as (Hr & Hb & Hbody).
  split; [exact Hr|]. split; [exact Hb|]. split; [exact Hbody|].
  exists config', payload.
  split; [exact H1|]. split; [exact H2|]. split; [exact H3|].
  split; [exact Hp | exact Hold].
Defined.

(** X2 at the type [purchase] and a payload with a field that is not one
    of the three: [getJetlorePayload] returns the three fields and not
    the fourth. *)
Lemma getJetlorePayload_projects_sample :
  let o := [(js "deal_id", VString (js "d1")); (js "secret", VString (js "s"));
            (js "count", VString (js "2"))] in
  exists keys,
    Forall (fun k => k ∈ jetlore_field_names) keys
    /\ getJetlorePayload (VString (js "purchase")) (VObject o)
       = Ok (VObject (map (fun k => (k, own_or_undefined o k)) keys))
    /\ getJetlorePayload (VString (js "purchase")) (VObject o)
       = Ok (VObject [(js "deal_id", VString (js "d1"));
                      (js "option_id", VUndefined);
                      (js "count", VString (js "2"))]).
Proof.
  cbv zeta.
  destruct (getJetlorePayload_projects (VString (js "purchase")) eq_refl)
    as [Hundef|(keys & _ & _ & Hin & Hget)].
  - specialize (Hundef []). discriminate Hundef.
  - exists keys. split; [exact Hin|]. split; [apply Hget | reflexivity].
Defined.
